(** * Error propagation in the Express demo: catchAsync, AppError and the
      centralized error-handling middleware

    Shallow embedding of [src/utils/catchAsync.js] and of the error path of
    [src/ErrorHandlingIllustration.js] (the routes of lines 59-100 that raise
    or forward failures, the catch-all route of lines 103-106 and the
    error-handling middleware of lines 110-149).

    The JavaScript fragment that the embedding covers:
    - values are [undefined], [null], booleans, numbers that are integers
      in the safe range, strings (one character per code unit, the ASCII
      fragment) and references to heap objects;
    - objects carry data properties with an enumerable flag, all writable, in
      the order in which the engine enumerates own keys, and a prototype
      chain; accessors (but for [__proto__] of [Object.prototype]), proxies,
      symbols and function values are outside the fragment, and so is the
      conversion of an object to a string, which runs user code: the model
      reports it as [Unmodelled];
    - an exception of the engine or of a library is a completion that keeps
      its kind, not a value; where such an exception would be caught and
      handed on as a value, the model reports [Unmodelled];
    - the wrapper objects of primitives define none of the keys this program
      reads ([name], [message], [code], [errors], [keyValue], [statusCode]). *)

From stdpp Require Import gmap strings list pretty.

Local Open Scope Z_scope.

(** ** Values, objects and the heap *)

Definition loc := positive.

Inductive value : Type :=
| VUndefined
| VNull
| VBool (b : bool)
| VNum (n : Z)
| VStr (s : string)
| VRef (l : loc).

Arguments VRef l%_positive.

#[global] Instance value_eq_dec : EqDecision value.
Proof. solve_decision. Defined.

Record property := mkProperty { p_value : value; p_enumerable : bool }.

(** An object: its own properties and, for each object up its prototype
    chain, the own properties of that prototype.  Prototypes are never written
    by this program, so each object carries its chain by value. *)
Record object := Obj {
  o_props : list (string * property);
  o_chain : list (list (string * property))
}.

Abbreviation heap := (gmap loc object).

(** [{}]: the prototype [Object.prototype] defines none of the keys read. *)
Definition empty_object : object := Obj [] [].

(** A location that holds nothing reads as an object without properties;
    heaps of running programs have no such references. *)
Definition obj_at (h : heap) (l : loc) : object := default empty_object (h !! l).

(** [a === b] *)
Definition strict_eq (a b : value) : bool :=
  match a, b with
  | VUndefined, VUndefined => true
  | VNull, VNull => true
  | VBool x, VBool y => Bool.eqb x y
  | VNum x, VNum y => Z.eqb x y
  | VStr x, VStr y => String.eqb x y
  | VRef x, VRef y => Pos.eqb x y
  | _, _ => false
  end.

(** ToBoolean, as used by [||]. *)
Definition truthy (v : value) : bool :=
  match v with
  | VUndefined | VNull => false
  | VBool b => b
  | VNum n => negb (Z.eqb n 0)
  | VStr s => negb (String.eqb s "")
  | VRef _ => true
  end.

(** [a || b] on already evaluated operands without effects. *)
Definition js_or (a b : value) : value := if truthy a then a else b.

Fixpoint own_property (k : string) (ps : list (string * property)) : option property :=
  match ps with
  | [] => None
  | (k', p) :: ps' => if String.eqb k' k then Some p else own_property k ps'
  end.

(** Ordinary [[Get]] on an object: own property first, then the prototype
    chain, [undefined] when the chain ends. *)
Fixpoint lookup_chain (k : string) (chain : list (list (string * property))) : value :=
  match chain with
  | [] => VUndefined
  | ps :: chain' =>
      match own_property k ps with
      | Some p => p_value p
      | None => lookup_chain k chain'
      end
  end.

Definition lookup_property (o : object) (k : string) : value :=
  lookup_chain k (o_props o :: o_chain o).

(** [o[k] = v] on an ordinary object whose properties are all writable:
    an existing own property keeps its place and flags, a new one is appended
    as enumerable. *)
Fixpoint set_own (k : string) (v : value) (ps : list (string * property))
  : list (string * property) :=
  match ps with
  | [] => [(k, mkProperty v true)]
  | (k', p) :: ps' =>
      if String.eqb k' k then (k', mkProperty v (p_enumerable p)) :: ps'
      else (k', p) :: set_own k v ps'
  end.

Definition obj_set (o : object) (k : string) (v : value) : object :=
  Obj (set_own k v (o_props o)) (o_chain o).

(** Own enumerable string-keyed properties, in enumeration order. *)
Definition enumerable_props (o : object) : list (string * value) :=
  omap (fun kp => if p_enumerable (snd kp) then Some (fst kp, p_value (snd kp)) else None)
       (o_props o).

(** The index properties of a string primitive: ["0"], ["1"], ... *)
Fixpoint string_chars (i : nat) (s : string) : list (string * value) :=
  match s with
  | EmptyString => []
  | String c s' => (pretty i, VStr (String c EmptyString)) :: string_chars (S i) s'
  end.

(** ** Completions and the state monad of the request cycle *)

(** The errors that the engine and the libraries throw in this fragment. *)
Inductive error_kind : Type := TypeError | RangeError.

Inductive completion (A : Type) : Type :=
| Normal (a : A)
| Throw (k : error_kind)
| Unmodelled.
Arguments Normal {A} a.
Arguments Throw {A} k.
Arguments Unmodelled {A}.

(** A call of [res.json] that completed: the status code of the response at
    that time and the fields of the body that the call was given.  What the
    transport then puts on the wire is its own business: it leaves the body
    out for a HEAD request and for a status that carries none. *)
Record response := mkResponse { r_status : value; r_body : list (string * value) }.

(** One call of [console.error]: its arguments and the heap it prints from. *)
Record log_entry := mkLog { log_args : list value; log_heap : heap }.

Record state := mkState {
  st_heap : heap;
  st_console : list log_entry;
  st_status : value;            (* res.statusCode *)
  st_sent : list response       (* the completed calls of res.json *)
}.

Definition M (A : Type) : Type := state -> state * completion A.

Definition ret {A} (a : A) : M A := fun s => (s, Normal a).

Definition bind {A B} (m : M A) (f : A -> M B) : M B :=
  fun s =>
    match m s with
    | (s1, Normal a) => f a s1
    | (s1, Throw k) => (s1, Throw k)
    | (s1, Unmodelled) => (s1, Unmodelled)
    end.

Definition read_heap : M heap := fun s => (s, Normal (st_heap s)).

Declare Scope js_scope.
Delimit Scope js_scope with js.
Notation "x <- m ;; k" := (bind m (fun x => k))
  (at level 100, m at next level, right associativity) : js_scope.
Notation "m ;;; k" := (bind m (fun _ => k))
  (at level 100, right associativity) : js_scope.
Local Open Scope js_scope.

(** [l.map(f)] for a callback with effects, left to right. *)
Fixpoint Array_map {A B} (f : A -> M B) (l : list A) : M (list B) :=
  match l with
  | [] => ret []
  | x :: l' => y <- f x ;; ys <- Array_map f l' ;; ret (y :: ys)
  end.

(** Allocation of a new object at a location the heap does not use yet. *)
Definition alloc (o : object) : M value :=
  fun s =>
    let l := fresh (dom (st_heap s)) in
    (mkState (<[l := o]> (st_heap s)) (st_console s) (st_status s) (st_sent s),
     Normal (VRef l)).

(** [v.k]: a TypeError on [undefined] and [null], the property through the
    prototype chain on an object, [undefined] on the other primitives. *)
Definition get (h : heap) (v : value) (k : string) : completion value :=
  match v with
  | VUndefined | VNull => Throw TypeError
  | VRef l => Normal (lookup_property (obj_at h l) k)
  | VBool _ | VNum _ | VStr _ => Normal VUndefined
  end.

Definition Get (v : value) (k : string) : M value :=
  fun s => (s, get (st_heap s) v k).

(** [v.k = x] in sloppy mode. *)
Definition SetProp (v : value) (k : string) (x : value) : M unit :=
  fun s =>
    match v with
    | VUndefined | VNull => (s, Throw TypeError)
    | VRef l =>
        (mkState (<[l := obj_set (obj_at (st_heap s) l) k x]> (st_heap s))
                 (st_console s) (st_status s) (st_sent s), Normal tt)
    | VBool _ | VNum _ | VStr _ => (s, Normal tt)
    end.

(** The own enumerable properties that [Object.keys], [Object.values] and
    [Object.assign] see after ToObject. *)
Definition own_enumerable (h : heap) (v : value) : completion (list (string * value)) :=
  match v with
  | VUndefined | VNull => Throw TypeError
  | VRef l => Normal (enumerable_props (obj_at h l))
  | VStr s => Normal (string_chars 0 s)
  | VBool _ | VNum _ => Normal []
  end.

Definition Object_keys (v : value) : M (list string) :=
  fun s => (s, match own_enumerable (st_heap s) v with
               | Normal kvs => Normal (map fst kvs)
               | Throw k => Throw k
               | Unmodelled => Unmodelled
               end).

Definition Object_values (v : value) : M (list value) :=
  fun s => (s, match own_enumerable (st_heap s) v with
               | Normal kvs => Normal (map snd kvs)
               | Throw k => Throw k
               | Unmodelled => Unmodelled
               end).

(** The prototype chain that a reference to an object stands for. *)
Definition chain_of (o : object) : list (list (string * property)) :=
  o_props o :: o_chain o.

(** One step of [Object.assign]: the target receives the property by
    assignment.  The target is a new object, which inherits the accessor
    [__proto__] of [Object.prototype]: assigning to that key replaces the
    prototype of the target when the value is an object or [null] and does
    nothing otherwise; any other key becomes an own property. *)
Definition assign_one (h : heap) (acc : object) (kv : string * value) : object :=
  if String.eqb (fst kv) "__proto__"
  then match snd kv with
       | VRef l => Obj (o_props acc) (chain_of (obj_at h l))
       | VNull => Obj (o_props acc) []
       | _ => acc
       end
  else obj_set acc (fst kv) (snd kv).

(** [Object.assign({}, src)]: a new ordinary object that receives the own
    enumerable properties of [src] by assignment, in enumeration order;
    [undefined] and [null] sources are skipped. *)
Definition assign_props (h : heap) (kvs : list (string * value)) (o : object) : object :=
  fold_left (assign_one h) kvs o.

Definition assignable_props (h : heap) (src : value) : list (string * value) :=
  match own_enumerable h src with
  | Normal kvs => kvs
  | _ => []
  end.

Definition Object_assign_new (src : value) : M value :=
  h <- read_heap ;;
  alloc (assign_props h (assignable_props h src) empty_object).

(** The string that [Array.prototype.join] uses for one element. *)
Definition join_element (v : value) : completion string :=
  match v with
  | VUndefined | VNull => Normal ""
  | VStr s => Normal s
  | VBool true => Normal "true"
  | VBool false => Normal "false"
  | VNum n => Normal (pretty n)
  | VRef _ => Unmodelled
  end.

Fixpoint join_elements (vs : list value) : completion (list string) :=
  match vs with
  | [] => Normal []
  | v :: vs' =>
      match join_element v with
      | Normal s =>
          match join_elements vs' with
          | Normal ss => Normal (s :: ss)
          | Throw k => Throw k
          | Unmodelled => Unmodelled
          end
      | Throw k => Throw k
      | Unmodelled => Unmodelled
      end
  end.

(** [vs.join(sep)] *)
Definition Array_join (sep : string) (vs : list value) : M string :=
  fun s => (s, match join_elements vs with
               | Normal ss => Normal (String.concat sep ss)
               | Throw k => Throw k
               | Unmodelled => Unmodelled
               end).

(** [console.error(...args)] *)
Definition console_error (args : list value) : M unit :=
  fun s => (mkState (st_heap s) (st_console s ++ [mkLog args (st_heap s)])
                    (st_status s) (st_sent s), Normal tt).

(** [res.status(code)]: Express 4, for which the demo is written (line 103
    registers the path ['*']), stores the code as it is given; the code is
    checked when the head of the response is written. *)
Definition res_status (code : value) : M unit :=
  fun s => (mkState (st_heap s) (st_console s) code (st_sent s), Normal tt).

(** What the transport (the [http] module of Node) makes of [res.statusCode]
    when the head of the response is written: it converts the code to a
    32-bit integer ([statusCode |= 0]) and throws the RangeError
    [ERR_HTTP_INVALID_STATUS_CODE] unless that is one of 100..999.
    [undefined], [null] and the booleans convert to 0 or 1; the conversion of
    a string or of an object, and the wrap-around of a number outside the
    32-bit range, are outside the fragment. *)
Inductive verdict : Type := Accepted | Refused | NotModelled.

Definition status_verdict (status : value) : verdict :=
  match status with
  | VNum n =>
      if (100 <=? n) && (n <=? 999) then Accepted
      else if (-2147483648 <=? n) && (n <=? 2147483647) then Refused
      else NotModelled
  | VUndefined | VNull | VBool _ => Refused
  | VStr _ | VRef _ => NotModelled
  end.

(** [res.json(body)] with the fields of the object literal it is given: the
    response is written with the status code that the response has, and
    nothing is written when the transport refuses that code. *)
Definition res_json (body : list (string * value)) : M unit :=
  fun s =>
    match status_verdict (st_status s) with
    | Accepted => (mkState (st_heap s) (st_console s) (st_status s)
                           (st_sent s ++ [mkResponse (st_status s) body]), Normal tt)
    | Refused => (s, Throw RangeError)
    | NotModelled => (s, Unmodelled)
    end.

(** ** utils/AppError *)

(** Modelled from the spec: the class [AppError] of [utils/AppError.js], which
    the sources import but which is not among them.  Section 4.2 gives its
    constructor, (message: string, statusCode: integer), and its attributes
    [message], [statusCode] and [isOperational = true].  As the comment on
    line 114 of the middleware records for errors, [message] is not
    enumerable.  The prototype chain of the class is left out: it defines
    neither a [code] nor one of the three names that the middleware tests. *)
Definition AppError_object (message : string) (statusCode : Z) : object :=
  Obj [("message", mkProperty (VStr message) false);
       ("statusCode", mkProperty (VNum statusCode) true);
       ("isOperational", mkProperty (VBool true) true)] [].

Definition new_AppError (message : string) (statusCode : Z) : M value :=
  alloc (AppError_object message statusCode).

(** ** ErrorHandlingIllustration.js, lines 103-149 *)

Record request := mkRequest { req_method : string; req_url : string }.

(** Lines 113-117: the shallow copy, the restored message and the log. *)
Definition copy_and_log (err : value) : M value :=
  error <- Object_assign_new err ;;
  m <- Get err "message" ;;
  SetProp error "message" m ;;;
  console_error [VStr "ERROR 💥"; err] ;;;
  ret error.

(** Lines 121-123. *)
Definition rule_CastError (err error : value) : M value :=
  n <- Get err "name" ;;
  if strict_eq n (VStr "CastError")
  then new_AppError "Invalid ID format" 400
  else ret error.

(** Lines 126-129. *)
Definition rule_ValidationError (err error : value) : M value :=
  n <- Get err "name" ;;
  if strict_eq n (VStr "ValidationError")
  then errors <- Get err "errors" ;;
       vals <- Object_values errors ;;
       msgs <- Array_map (fun e => Get e "message") vals ;;
       messages <- Array_join ". " msgs ;;
       new_AppError messages 400
  else ret error.

(** Lines 132-136. *)
Definition rule_duplicate_key (err error : value) : M value :=
  c <- Get err "code" ;;
  if strict_eq c (VNum 11000)
  then kv <- Get err "keyValue" ;;
       payload <- (if truthy kv then ret kv else alloc empty_object) ;;
       keys <- Object_keys payload ;;
       field <- Array_join ", " (map VStr keys) ;;
       new_AppError ("Duplicate field value: " +:+ field) 400
  else ret error.

(** Lines 139-141. *)
Definition rule_DocumentNotFoundError (err error : value) : M value :=
  n <- Get err "name" ;;
  if strict_eq n (VStr "DocumentNotFoundError")
  then new_AppError "Requested document not found" 404
  else ret error.

(** Lines 113-141: the value of the variable [error] that reaches the
    response step. *)
Definition classify (err : value) : M value :=
  error <- copy_and_log err ;;
  error <- rule_CastError err error ;;
  error <- rule_ValidationError err error ;;
  error <- rule_duplicate_key err error ;;
  rule_DocumentNotFoundError err error.

(** Lines 143-148: the response step. *)
Definition respond (error : value) : M unit :=
  sc <- Get error "statusCode" ;;
  let statusCode := js_or sc (VNum 500) in
  res_status statusCode ;;;
  m <- Get error "message" ;;
  res_json [("statusCode", statusCode);
            ("message", js_or m (VStr "Something went wrong"))].

(** Lines 110-149: [app.use((err, req, res, next) => ...)]. *)
Definition errorMiddleware (err : value) : M unit :=
  error <- classify err ;;
  respond error.

(** Lines 103-106: [app.all('*', ...)], with the callback [next] it is given. *)
Definition catchAll (req : request) (next : value -> M unit) : M unit :=
  e <- new_AppError ("Can't find " +:+ req_url req +:+ " on this server") 404 ;;
  next e.

(** The routing layer of Express, an external collaborator (sections 1 and 6
    of the specification): [next(err)] hands a forwarded failure to the
    terminal error-handling stage, the only error-handling middleware
    registered. *)
Definition forward_failure (err : value) : M unit := errorMiddleware err.

(** A request that no route matched: the catch-all runs and forwards. *)
Definition unmatched_route (req : request) : M unit := catchAll req forward_failure.

(** ** utils/catchAsync.js *)

Module Async.
Section Handlers.

(** What a handler does to the response sink and to the world is kept as
    opaque effects; the request and the response sink are opaque too. *)
Context {effect Req Res : Type}.

Inductive event : Type :=
| EvNext (v : value)                 (* the callback [next] is called with [v] *)
| EvEffect (x : effect)
| EvUnhandledRejection (e : value).  (* a promise rejects with no handler *)

Inductive outcome (A : Type) : Type :=
| Returned (a : A)
| Threw (e : value).

(** A call: the events it causes, in order, and how it ends. *)
Definition T (A : Type) : Type := (list event * outcome A)%type.

Definition callback : Type := value -> T unit.

Inductive settlement : Type :=
| Fulfilled (v : value)
| Rejected (e : value)
| Pending.

(** A promise: what happens until it settles, and how it settles. *)
Record promise := mkPromise { p_events : list event; p_settle : settlement }.

Inductive returned : Type :=
| RetPromise (p : promise)
| RetValue (v : value).              (* anything without a [catch] method *)

Definition handler : Type := Req -> Res -> callback -> T returned.

(** The TypeError of the engine for [x.catch(...)] on an [x] without a
    callable [catch]. *)
Variable not_a_function : value.

(** [p.catch(onRejected)]: the promise derived from [p]. *)
Definition promise_catch (p : promise) (onRejected : value -> T unit) : promise :=
  match p_settle p with
  | Fulfilled v => mkPromise (p_events p) (Fulfilled v)
  | Rejected e =>
      match onRejected e with
      | (t, Returned _ _) => mkPromise (p_events p ++ t) (Fulfilled VUndefined)
      | (t, Threw _ e') => mkPromise (p_events p ++ t) (Rejected e')
      end
  | Pending => mkPromise (p_events p) Pending
  end.

(** A promise that nobody keeps: a rejection of it is unhandled. *)
Definition drop_promise (p : promise) : list event :=
  p_events p ++ match p_settle p with
                | Rejected e => [EvUnhandledRejection e]
                | _ => []
                end.

(** Lines 3-7. *)
Definition catchAsync (fn : handler) : handler :=
  fun req res next =>
    match fn req res next with
    | (t, Threw _ e) => (t, Threw _ e)
    | (t, Returned _ (RetValue _)) => (t, Threw _ not_a_function)
    | (t, Returned _ (RetPromise p)) =>
        (t ++ drop_promise (promise_catch p (fun err => next err)),
         Returned _ (RetValue VUndefined))
    end.

(** The routing layer of Express, an external collaborator (section 4.1 of
    the specification).  It catches what a handler throws and forwards it,
    and it ignores what a handler returns, so that a rejected promise of an
    unwrapped handler is unhandled (the comment on lines 71-74 of the demo).
    [next] announces each call before the downstream stages run. *)
Definition express_next (downstream : value -> list effect * outcome unit) : callback :=
  fun v => (EvNext v :: map EvEffect (fst (downstream v)), snd (downstream v)).

Definition layer_call (h : handler) (req : Req) (res : Res) (next : callback) : T unit :=
  match h req res next with
  | (t, Threw _ e) => (t ++ fst (next e), snd (next e))
  | (t, Returned _ (RetValue _)) => (t, Returned _ tt)
  | (t, Returned _ (RetPromise p)) => (t ++ drop_promise p, Returned _ tt)
  end.

Definition next_calls (t : list event) : list value :=
  omap (fun ev => match ev with EvNext v => Some v | _ => None end) t.

Definition unhandled_rejections (t : list event) : list value :=
  omap (fun ev => match ev with EvUnhandledRejection e => Some e | _ => None end) t.

Definition thrown {A} (o : outcome A) : list value :=
  match o with
  | Threw _ e => [e]
  | Returned _ _ => []
  end.

End Handlers.
End Async.

(** ** The taxonomy of section 4.3, as the specification words it *)

(** The tag test on [name]. *)
Definition has_name (h : heap) (err : value) (tag : string) : bool :=
  match get h err "name" with
  | Normal n => strict_eq n (VStr tag)
  | _ => false
  end.

Definition has_code (h : heap) (err : value) (code : Z) : bool :=
  match get h err "code" with
  | Normal c => strict_eq c (VNum code)
  | _ => false
  end.

(** The message that one per-field error object exposes. *)
Definition field_message (h : heap) (e : value) : option string :=
  match e with
  | VRef l =>
      match h !! l with
      | Some o =>
          match lookup_property o "message" with
          | VStr m => Some m
          | _ => None
          end
      | None => None
      end
  | _ => None
  end.

(** The field-validation payload of section 6: [errors] is a mapping from
    field names to per-field error objects that expose a message.  [Some]
    with the messages in field order when the payload has that shape. *)
Definition field_messages (h : heap) (err : value) : option (list string) :=
  match get h err "errors" with
  | Normal (VRef le) =>
      match h !! le with
      | Some oe => mapM (fun kv => field_message h (snd kv)) (enumerable_props oe)
      | None => None
      end
  | _ => None
  end.

(** The key set of the conflict payload, empty when there is none. *)
Definition conflict_keys (h : heap) (err : value) : list string :=
  match get h err "keyValue" with
  | Normal kv =>
      if truthy kv then
        match own_enumerable h kv with
        | Normal kvs => map fst kvs
        | _ => []
        end
      else []
  | _ => []
  end.

Definition invalid_identifier_shape (h : heap) (err : value) : bool :=
  has_name h err "CastError".

Definition field_validation_shape (h : heap) (err : value) : bool :=
  has_name h err "ValidationError" && bool_decide (is_Some (field_messages h err)).

Definition uniqueness_conflict_shape (h : heap) (err : value) : bool :=
  has_code h err 11000.

Definition not_found_shape (h : heap) (err : value) : bool :=
  has_name h err "DocumentNotFoundError".

(** A rule: the shape it recognizes and the message and status it produces. *)
Record rule := mkRule {
  rule_shape : heap -> value -> bool;
  rule_result : heap -> value -> string * Z
}.

Definition rules_in_order : list rule :=
  [ mkRule invalid_identifier_shape (fun _ _ => ("Invalid ID format", 400));
    mkRule field_validation_shape
           (fun h err => (String.concat ". " (default [] (field_messages h err)), 400));
    mkRule uniqueness_conflict_shape
           (fun h err => ("Duplicate field value: " +:+ String.concat ", " (conflict_keys h err),
                          400));
    mkRule not_found_shape (fun _ _ => ("Requested document not found", 404)) ].

Definition matching_rules (h : heap) (err : value) : list rule :=
  filter (fun r => rule_shape r h err = true) rules_in_order.

(** Overwrite semantics: of the rules that match, the last one decides. *)
Definition last_matching_result (h : heap) (err : value) : option (string * Z) :=
  (fun r => rule_result r h err) <$> last (matching_rules h err).

(** ** Notions for the statements *)

(** A value of the heap: a primitive, or a reference to an allocated object. *)
Definition in_heap (h : heap) (v : value) : Prop :=
  match v with
  | VRef l => is_Some (h !! l)
  | _ => True
  end.

(** [sub] occurs in [s]. *)
Definition contains (s sub : string) : Prop :=
  exists pre post, s = pre +:+ sub +:+ post.


(** The value of the own enumerable property [k], as [Object.assign] copies
    it: the last assignment to [k] decides. *)
Fixpoint copied_value (k : string) (kvs : list (string * value)) (d : value) : value :=
  match kvs with
  | [] => d
  | (k', v) :: kvs' => copied_value k kvs' (if String.eqb k' k then v else d)
  end.

(** The prototype chain of the copy: [chain] unless one of the properties
    copied is a [__proto__] that holds an object or [null]. *)
Fixpoint copied_chain (h : heap) (kvs : list (string * value))
    (chain : list (list (string * property))) : list (list (string * property)) :=
  match kvs with
  | [] => chain
  | (k', v) :: kvs' =>
      copied_chain h kvs'
        (if String.eqb k' "__proto__"
         then match v with
              | VRef l => chain_of (obj_at h l)
              | VNull => []
              | _ => chain
              end
         else chain)
  end.

(** What the key [k] reads on [Object.assign({}, src)]: the own enumerable
    property [k] of [src] when it has one, and else what the prototype of the
    copy holds. *)
Definition copied_property (h : heap) (src : value) (k : string) : value :=
  copied_value k (assignable_props h src)
    (lookup_chain k (copied_chain h (assignable_props h src) [])).

Definition a_state (h : heap) : state := mkState h [] (VNum 200) [].

Definition message_of (h : heap) (err : value) : value :=
  match get h err "message" with
  | Normal m => m
  | _ => VUndefined
  end.

(** The object that line 113 and line 114 build from [err]. *)
Definition shallow_copy (h : heap) (err : value) : object :=
  obj_set (assign_props h (assignable_props h err) empty_object) "message" (message_of h err).

(** The object behind the variable [error] when the response step starts,
    read off the four tests from the last one to the first. *)
Definition classified_object (h : heap) (err : value) : object :=
  if has_name h err "DocumentNotFoundError"
  then AppError_object "Requested document not found" 404
  else if has_code h err 11000
  then AppError_object
         ("Duplicate field value: " +:+ String.concat ", " (conflict_keys h err)) 400
  else if has_name h err "ValidationError"
  then AppError_object (String.concat ". " (default [] (field_messages h err))) 400
  else if has_name h err "CastError"
  then AppError_object "Invalid ID format" 400
  else shallow_copy h err.

(** The state after a computation that only allocates: the old heap is a
    part of the new one and nothing else changed. *)
Definition grows (s s' : state) : Prop :=
  st_heap s ⊆ st_heap s' /\ st_console s' = st_console s /\
  st_status s' = st_status s /\ st_sent s' = st_sent s.

Definition alloc_only {A} (m : M A) : Prop := forall s, grows s (fst (m s)).

(** ** Further notions for the statements and the proofs *)

(** Each rule either fires, and then [error] is a new [AppError], or leaves
    the state and [error] as they are. *)
Definition rule_outcome (fired : bool) (o : object) (s : state) (error : value)
    (s' : state) (error' : value) : Prop :=
  grows s s' /\
  if fired
  then exists l, error' = VRef l /\ st_heap s !! l = None /\ st_heap s' !! l = Some o
  else s' = s /\ error' = error.

(** The response that the response step builds from the object behind [error]. *)
Definition response_of (o : object) : response :=
  mkResponse (js_or (lookup_property o "statusCode") (VNum 500))
    [("statusCode", js_or (lookup_property o "statusCode") (VNum 500));
     ("message", js_or (lookup_property o "message") (VStr "Something went wrong"))].

(** The middleware answers the error [err] with [statusCode] and [message]. *)
Definition responds_with (s : state) (err : value) (statusCode : Z) (message : string) : Prop :=
  exists s', errorMiddleware err s = (s', Normal tt) /\
    st_sent s' = st_sent s ++
      [mkResponse (VNum statusCode) [("statusCode", VNum statusCode); ("message", VStr message)]].


(** ** Sample errors *)

(** A Mongoose [CastError]: the name sits on the prototype. *)
Definition heap_CastError : heap :=
  {[ 1%positive :=
       Obj [("message", mkProperty (VStr "Cast to ObjectId failed") false);
            ("kind", mkProperty (VStr "ObjectId") true);
            ("value", mkProperty (VStr "abc") true);
            ("path", mkProperty (VStr "_id") true)]
           [[("name", mkProperty (VStr "CastError") false)]] ]}.

(** The same tag on an error that also carries the duplicate-key code. *)
Definition heap_CastError_11000 : heap :=
  {[ 1%positive :=
       Obj [("message", mkProperty (VStr "Cast to ObjectId failed") false);
            ("code", mkProperty (VNum 11000) true)]
           [[("name", mkProperty (VStr "CastError") false)]] ]}.

(** A [ValidationError] with the fields [{a: "A invalid", b: "B invalid"}]. *)
Definition validation_fields : list (loc * object) :=
  [ (2%positive, Obj [("a", mkProperty (VRef 3) true); ("b", mkProperty (VRef 4) true)] []);
    (3%positive, Obj [("message", mkProperty (VStr "A invalid") false)] []);
    (4%positive, Obj [("message", mkProperty (VStr "B invalid") false)] []) ].

Definition heap_ValidationError : heap :=
  list_to_map
    ((1%positive,
      Obj [("errors", mkProperty (VRef 2) true);
           ("message", mkProperty (VStr "User validation failed") false)]
          [[("name", mkProperty (VStr "ValidationError") false)]]) :: validation_fields).

Definition heap_ValidationError_11000 : heap :=
  list_to_map
    ((1%positive,
      Obj [("errors", mkProperty (VRef 2) true);
           ("code", mkProperty (VNum 11000) true)]
          [[("name", mkProperty (VStr "ValidationError") false)]]) :: validation_fields).

(** A duplicate-key error of the driver with the conflict key
    [{email: "x@y.com"}]. *)
Definition heap_duplicate : heap :=
  list_to_map
    [ (1%positive,
       Obj [("message", mkProperty (VStr "E11000 duplicate key error") false);
            ("code", mkProperty (VNum 11000) true);
            ("keyValue", mkProperty (VRef 2) true)]
           [[("name", mkProperty (VStr "MongoServerError") false)]]);
      (2%positive, Obj [("email", mkProperty (VStr "x@y.com") true)] []) ].

(** The same code and payload on an error tagged [DocumentNotFoundError]. *)
Definition heap_duplicate_not_found : heap :=
  list_to_map
    [ (1%positive,
       Obj [("code", mkProperty (VNum 11000) true);
            ("keyValue", mkProperty (VRef 2) true)]
           [[("name", mkProperty (VStr "DocumentNotFoundError") false)]]);
      (2%positive, Obj [("email", mkProperty (VStr "x@y.com") true)] []) ].

(** Code 11000 without a [keyValue]. *)
Definition heap_duplicate_bare : heap :=
  {[ 1%positive :=
       Obj [("message", mkProperty (VStr "E11000 duplicate key error") false);
            ("code", mkProperty (VNum 11000) true)]
           [[("name", mkProperty (VStr "MongoServerError") false)]] ]}.

Definition heap_duplicate_bare_not_found : heap :=
  {[ 1%positive :=
       Obj [("code", mkProperty (VNum 11000) true)]
           [[("name", mkProperty (VStr "DocumentNotFoundError") false)]] ]}.

Definition heap_not_found : heap :=
  {[ 1%positive :=
       Obj [("message", mkProperty (VStr "No document found for query") false)]
           [[("name", mkProperty (VStr "DocumentNotFoundError") false)]] ]}.

(** [new Error('Synchronous error thrown!')], line 62. *)
Definition heap_plain_error : heap :=
  {[ 1%positive :=
       Obj [("message", mkProperty (VStr "Synchronous error thrown!") false)]
           [[("name", mkProperty (VStr "Error") false);
             ("message", mkProperty (VStr "") false)]] ]}.

Definition the_error : value := VRef 1.



(** A step that reads only. *)
Definition reads_only {A} (m : M A) : Prop := forall s s' c, m s = (s', c) -> s' = s.

(** What a rule hands on: the [error] it was given, or a new object. *)
Definition same_or_new (s : state) (error error' : value) : Prop :=
  error' = error \/ exists l, error' = VRef l /\ st_heap s !! l = None.

(** Route 4 of the demo, [/async-good]: the handler awaits a promise that
    rejects, so its own promise rejects with that error after no effect. *)
Definition async_good {effect : Type} (e : value) : @Async.handler effect request unit :=
  fun _ _ _ => ([], Async.Returned _ (Async.RetPromise (Async.mkPromise [] (Async.Rejected e)))).

(** The TypeError of the engine, as a value. *)
Definition catch_is_not_a_function : value := VStr "TypeError: fn(...).catch is not a function".

(** A downstream stage that answers and returns. *)
Definition answering (summary : string) : value -> list string * Async.outcome unit :=
  fun _ => ([summary], Async.Returned _ tt).

(** [new Error('Async failure insider catchAsync')], line 81. *)
Definition heap_async_failure : heap :=
  {[ 1%positive :=
       Obj [("message", mkProperty (VStr "Async failure insider catchAsync") false)]
           [[("name", mkProperty (VStr "Error") false);
             ("message", mkProperty (VStr "") false)]] ]}.

(** The routing layer of Express runs the error-handling middleware on a
    forwarded failure and returns to the caller of [next] (sections 2 and 6
    of the specification). *)
Definition through_middleware (s : state) : value -> list response * Async.outcome unit :=
  fun e => (st_sent (fst (errorMiddleware e s)), Async.Returned _ tt).

(** ** Further notions: other behaviour of the middleware *)

(** A thrown boolean, number or string. *)
Definition is_primitive (v : value) : bool :=
  match v with
  | VBool _ | VNum _ | VStr _ => true
  | _ => false
  end.

(** The routing layer of Express, an external collaborator: a value that a
    handler throws or passes to [next] goes to the error-handling middleware
    when it is truthy and is not one of the signals ['route'] and ['router'];
    any other value continues the normal chain. *)
Definition forwarded_as_error (v : value) : bool :=
  truthy v && negb (strict_eq v (VStr "route")) && negb (strict_eq v (VStr "router")).

(** The first character of a string. *)
Definition leading (s : string) : option Ascii.ascii :=
  match s with
  | EmptyString => None
  | String c _ => Some c
  end.

(** The letter that [statusCode] starts with. *)
Definition letter_s : Ascii.ascii := default Ascii.zero (leading "statusCode").

(** The character that [__proto__] starts with. *)
Definition underscore : Ascii.ascii := default Ascii.zero (leading "__proto__").


(** [JSON.parse('{"__proto__": {"statusCode": 418}}')]: an object with an
    own enumerable property [__proto__]. *)
Definition heap_proto_key : heap :=
  list_to_map
    [ (1%positive, Obj [("__proto__", mkProperty (VRef 2) true)] []);
      (2%positive, Obj [("statusCode", mkProperty (VNum 418) true)] []) ].

(** An [AppError] with a status that is no HTTP status. *)
Definition heap_bad_status : heap :=
  {[ 1%positive := AppError_object "Out of stock" 1001 ]}.

(** A [ValidationError] that lost its [errors]. *)
Definition heap_ValidationError_bare : heap :=
  {[ 1%positive :=
       Obj [("message", mkProperty (VStr "Validation failed") false)]
           [[("name", mkProperty (VStr "ValidationError") false)]] ]}.

(** An [AppError] as line 97 builds it. *)
Definition heap_user_not_found : heap :=
  {[ 1%positive := AppError_object "User Not Found" 404 ]}.

(** A handler that is not [async]: it writes its response and returns
    [undefined], like the handler of line 55. *)
Definition plain_handler {effect : Type} (x : effect) : @Async.handler effect request unit :=
  fun _ _ _ => ([Async.EvEffect x], Async.Returned _ (Async.RetValue VUndefined)).

(** ** The routes of the demo, over the heap *)

(** The handlers of lines 59-100 allocate the errors they raise, so they are
    modelled over the monad of the middleware.  The data-access layer
    (Mongoose) is a collaborator: what [User.create] and [User.findById] do
    to the heap and how their promises settle are parameters. *)
Module Lifecycle.

(** What the handlers read of the request. *)
Record incoming := mkIncoming {
  in_request : request;
  in_id : string;               (* req.params.id *)
  in_body : value               (* req.body *)
}.

(** Why a promise rejects: with a value of the program, or with an error
    that the engine or a library threw, of which the monad keeps the kind
    only. *)
Inductive reason : Type :=
| Value (e : value)
| Thrown (k : error_kind).

(** How the promise of an [async] function settles. *)
Inductive fate : Type :=
| Fulfils
| Rejects (r : reason)
| Hangs.

(** The promise of an [async] function: the rest of its body, from the first
    [await] on, which runs after the synchronous code that called the
    function has returned. *)
Definition promise : Type := M fate.

(** A job that runs after the synchronous code; it reports the rejections
    that nothing handles. *)
Definition job : Type := M (list reason).

(** How a call of a handler ends. *)
Inductive ending : Type :=
| Returns                                  (* it returns [undefined] *)
| Throws (e : value)
| ReturnsPromise (p : promise).

(** A call of a handler: how it ends, and the jobs it leaves behind, in the
    order in which they run. *)
Record call := mkCall { ended : ending; left : list job }.

(** A handler, given the request and [next]; the response sink is the state. *)
Definition handler : Type := incoming -> (value -> M unit) -> M call.

(** [new Error(message)]: the message is an own property that is not
    enumerable, and [Error.prototype] holds the name and an empty message.
    The [stack] that engines add is left out. *)
Definition Error_object (message : string) : object :=
  Obj [("message", mkProperty (VStr message) false)]
      [[("name", mkProperty (VStr "Error") false);
        ("message", mkProperty (VStr "") false)]].

Definition new_Error (message : string) : M value := alloc (Error_object message).

(** The TypeError that the engine throws for [undefined.catch], with the
    wording of V8. *)
Definition TypeError_object : object :=
  Obj [("message",
        mkProperty (VStr "Cannot read properties of undefined (reading 'catch')") false)]
      [[("name", mkProperty (VStr "TypeError") false);
        ("message", mkProperty (VStr "") false)];
       [("name", mkProperty (VStr "Error") false);
        ("message", mkProperty (VStr "") false)]].

(** The body of an [async] function: an exception inside it does not reach
    the caller, it rejects the promise of the function. *)
Definition async_body (body : M fate) : promise :=
  fun s =>
    match body s with
    | (s', Throw k) => (s', Normal (Rejects (Thrown k)))
    | r => r
    end.

(** [await p] in an [async] function, outside any [try]: the function goes
    on with the value, or its own promise rejects with the same reason, or
    stays pending. *)
Definition await (p : M Async.settlement) (k : value -> M fate) : M fate :=
  st <- p ;;
  match st with
  | Async.Fulfilled v => k v
  | Async.Rejected e => ret (Rejects (Value e))
  | Async.Pending => ret Hangs
  end.

(** [p.catch(onRejected)], the derived promise being dropped: when [p]
    rejects the reaction runs, and an exception in the reaction rejects the
    derived promise, which nothing handles.  A reaction to an error of the
    engine would be given that error as a value, which the monad does not
    keep: that run is [Unmodelled]. *)
Definition caught (p : promise) (onRejected : value -> M unit) : job :=
  f <- p ;;
  match f with
  | Rejects (Value e) =>
      fun s =>
        match onRejected e s with
        | (s', Normal _) => (s', Normal [])
        | (s', Throw k) => (s', Normal [Thrown k])
        | (s', Unmodelled) => (s', Unmodelled)
        end
  | Rejects (Thrown _) => fun s => (s, Unmodelled)
  | Fulfils | Hangs => ret []
  end.

(** A promise that nobody keeps: a rejection of it is unhandled. *)
Definition dropped (p : promise) : job :=
  f <- p ;;
  match f with
  | Rejects r => ret [r]
  | Fulfils | Hangs => ret []
  end.

(** utils/catchAsync.js, lines 3-7, over the heap: [fn(req, res, next)]
    runs up to its return; an exception passes through; [.catch] is looked up
    on what was returned, which throws a TypeError on [undefined]; on a
    promise the reaction [(err) => next(err)] is registered and the wrapper
    returns [undefined] at once. *)
Definition catchAsync (fn : handler) : handler :=
  fun req next =>
    c <- fn req next ;;
    match ended c with
    | Throws x => ret c
    | Returns => x <- alloc TypeError_object ;; ret (mkCall (Throws x) (left c))
    | ReturnsPromise p => ret (mkCall Returns (left c ++ [caught p (fun err => next err)]))
    end.

(** The jobs run one after the other. *)
Fixpoint run_jobs (js : list job) : M (list reason) :=
  match js with
  | [] => ret []
  | j :: js' => rs <- j ;; rs' <- run_jobs js' ;; ret (rs ++ rs')
  end.

(** A call inside the [try] of the routing layer.  An error of the engine
    that escapes the call is caught and forwarded as a value, which the monad
    does not keep: that run is [Unmodelled]. *)
Definition in_try {A} (m : M A) : M A :=
  fun s =>
    match m s with
    | (s', Throw _) => (s', Unmodelled)
    | r => r
    end.

(** The routing layer of Express, an external collaborator: it calls the
    handler inside a [try], forwards what the handler throws to [next], and
    ignores what the handler returns; the jobs that the call left behind run
    afterwards.  The result lists the rejections that nothing handles. *)
Definition handle_request (h : handler) (req : incoming) (next : value -> M unit)
  : M (list reason) :=
  c <- in_try (h req next) ;;
  match ended c with
  | Returns => run_jobs (left c)
  | Throws x => next x ;;; run_jobs (left c)
  | ReturnsPromise p => run_jobs (left c ++ [dropped p])
  end.

(** [(req, res) => { throw new Error(message); }] *)
Definition throw_new_Error (message : string) : handler :=
  fun _ _ => e <- new_Error message ;; ret (mkCall (Throws e) []).

(** [(req, res, next) => { const err = new Error(message); next(err); }] *)
Definition next_new_Error (message : string) : handler :=
  fun _ next => err <- new_Error message ;; next err ;;; ret (mkCall Returns []).

(** [async (req, res, next) => { await Promise.reject(new Error(message)); }]:
    the error and the rejected promise are made before the function returns,
    and the [await] hands the rejection on afterwards. *)
Definition reject_new_Error (message : string) : handler :=
  fun _ _ =>
    e <- new_Error message ;;
    ret (mkCall (ReturnsPromise
                   (async_body (await (ret (Async.Rejected e)) (fun _ => ret Fulfils))))
                []).

(** Lines 60-63. *)
Definition route_error_throw : handler := throw_new_Error "Synchronous error thrown!".

(** Lines 66-69. *)
Definition route_next_error : handler := next_new_Error "Error passed with next()".

(** Lines 79-82. *)
Definition route_async_good : handler :=
  catchAsync (reject_new_Error "Async failure insider catchAsync").

Section Users.

Variable User_create : value -> M Async.settlement.
Variable User_findById : string -> M Async.settlement.

(** Lines 85-89, the handler under the wrapper.  The function returns its
    promise at the [await]; what the data-access layer does and the rest of
    the body come afterwards. *)
Definition create_user : handler :=
  fun req next =>
    ret (mkCall
           (ReturnsPromise
              (async_body
                 (await (User_create (in_body req)) (fun user =>
                    res_status (VNum 201) ;;;
                    res_json [("status", VStr "success"); ("data", user)] ;;;
                    ret Fulfils))))
           []).

Definition route_create_user : handler := catchAsync create_user.

(** Lines 92-100, the handler under the wrapper, in the same way. *)
Definition get_user : handler :=
  fun req next =>
    ret (mkCall
           (ReturnsPromise
              (async_body
                 (await (User_findById (in_id req)) (fun user =>
                    if truthy user
                    then res_json [("status", VStr "success"); ("data", user)] ;;;
                         ret Fulfils
                    else e <- new_AppError "User Not Found" 404 ;;
                         next e ;;;
                         ret Fulfils))))
           []).

Definition route_get_user : handler := catchAsync get_user.

End Users.

End Lifecycle.

(** A request for [/users/abc]. *)
Definition a_request : Lifecycle.incoming :=
  Lifecycle.mkIncoming (mkRequest "GET" "/users/abc") "abc" VUndefined.

(** A data-access layer whose calls settle at once, without touching the heap. *)
Definition settles (st : Async.settlement) {A : Type} : A -> M Async.settlement :=
  fun _ => ret st.

(** A stored user. *)
Definition heap_user : heap :=
  {[ 1%positive :=
       Obj [("name", mkProperty (VStr "Vamsi") true);
            ("email", mkProperty (VStr "a@b.com") true);
            ("age", mkProperty (VNum 20) true)] [] ]}.

(** * Properties *)

(** ** The monad *)

Lemma bind_run {A B} (m : M A) (f : A -> M B) s s1 a :
  m s = (s1, Normal a) -> bind m f s = f a s1.
Proof. intros H. unfold bind. now rewrite H. Qed.

Lemma bind_throw {A B} (m : M A) (f : A -> M B) s s1 k :
  m s = (s1, Throw k) -> bind m f s = (s1, Throw k).
Proof. intros H. unfold bind. now rewrite H. Qed.

Lemma bind_unmodelled {A B} (m : M A) (f : A -> M B) s s1 :
  m s = (s1, Unmodelled) -> bind m f s = (s1, Unmodelled).
Proof. intros H. unfold bind. now rewrite H. Qed.

Lemma grows_refl s : grows s s.
Proof. repeat split; reflexivity. Qed.

Lemma grows_trans s1 s2 s3 : grows s1 s2 -> grows s2 s3 -> grows s1 s3.
Proof.
  intros (Ha & Hb & Hc & Hd) (Ha' & Hb' & Hc' & Hd').
  repeat split; [by etrans | congruence ..].
Qed.

Lemma fresh_loc_unused (h : heap) : h !! fresh (dom h) = None.
Proof. apply not_elem_of_dom, is_fresh. Qed.

Lemma alloc_run o s :
  exists l, alloc o s = (mkState (<[l := o]> (st_heap s)) (st_console s) (st_status s)
                                 (st_sent s), Normal (VRef l))
            /\ st_heap s !! l = None.
Proof. exists (fresh (dom (st_heap s))). split; [reflexivity | apply fresh_loc_unused]. Qed.

Lemma alloc_only_ret {A} (a : A) : alloc_only (ret a).
Proof. intros s. apply grows_refl. Qed.

Lemma alloc_only_bind {A B} (m : M A) (f : A -> M B) :
  alloc_only m -> (forall a, alloc_only (f a)) -> alloc_only (bind m f).
Proof.
  intros Hm Hf s. unfold bind. specialize (Hm s).
  destruct (m s) as [s1 [a | | ]]; simpl in *; try done.
  eapply grows_trans; [exact Hm | apply Hf].
Qed.

Lemma alloc_only_alloc o : alloc_only (alloc o).
Proof.
  intros s. simpl. repeat split; simpl.
  apply insert_subseteq, fresh_loc_unused.
Qed.

Lemma alloc_only_Get v k : alloc_only (Get v k).
Proof. intros s. apply grows_refl. Qed.

Lemma alloc_only_Object_keys v : alloc_only (Object_keys v).
Proof. intros s. apply grows_refl. Qed.

Lemma alloc_only_Object_values v : alloc_only (Object_values v).
Proof. intros s. apply grows_refl. Qed.

Lemma alloc_only_Array_join sep vs : alloc_only (Array_join sep vs).
Proof. intros s. apply grows_refl. Qed.

Lemma alloc_only_if {A} (b : bool) (m1 m2 : M A) :
  alloc_only m1 -> alloc_only m2 -> alloc_only (if b then m1 else m2).
Proof. now destruct b. Qed.

Lemma alloc_only_Array_map {A B} (f : A -> M B) l :
  (forall a, alloc_only (f a)) -> alloc_only (Array_map f l).
Proof.
  intros Hf. induction l as [| x l IH]; simpl.
  - apply alloc_only_ret.
  - apply alloc_only_bind; [apply Hf | intros y].
    apply alloc_only_bind; [exact IH | intros ys; apply alloc_only_ret].
Qed.

Create HintDb alloc_only_db.
#[local] Hint Resolve alloc_only_ret alloc_only_alloc alloc_only_Get alloc_only_Object_keys
  alloc_only_Object_values alloc_only_Array_join alloc_only_if : alloc_only_db.

Ltac solve_alloc_only :=
  repeat first
    [ apply alloc_only_bind; [| intros ? ]
    | apply alloc_only_if
    | apply alloc_only_Array_map; intros ?
    | solve [ auto with alloc_only_db ] ].

Lemma alloc_only_rule_CastError err error : alloc_only (rule_CastError err error).
Proof. unfold rule_CastError, new_AppError. solve_alloc_only. Qed.

Lemma alloc_only_rule_ValidationError err error : alloc_only (rule_ValidationError err error).
Proof. unfold rule_ValidationError, new_AppError. solve_alloc_only. Qed.

Lemma alloc_only_rule_duplicate_key err error : alloc_only (rule_duplicate_key err error).
Proof. unfold rule_duplicate_key, new_AppError. solve_alloc_only. Qed.

Lemma alloc_only_rule_DocumentNotFoundError err error :
  alloc_only (rule_DocumentNotFoundError err error).
Proof. unfold rule_DocumentNotFoundError, new_AppError. solve_alloc_only. Qed.

(** ** Objects *)

Lemma own_property_set_own_same k v ps :
  exists e, own_property k (set_own k v ps) = Some (mkProperty v e).
Proof.
  induction ps as [| [k' p] ps IH]; simpl.
  - rewrite String.eqb_refl. eauto.
  - destruct (String.eqb k' k) eqn:E; simpl; rewrite E; eauto.
Qed.

Lemma own_property_set_own_other k k' v ps :
  String.eqb k' k = false -> own_property k (set_own k' v ps) = own_property k ps.
Proof.
  intros Hne. induction ps as [| [k2 p] ps IH]; simpl.
  - now rewrite Hne.
  - destruct (String.eqb k2 k') eqn:E; simpl.
    + apply String.eqb_eq in E. subst k2. now rewrite Hne.
    + now rewrite IH.
Qed.

Lemma lookup_obj_set o k' v k :
  lookup_property (obj_set o k' v) k =
  if String.eqb k' k then v else lookup_property o k.
Proof.
  unfold lookup_property, obj_set. simpl.
  destruct (String.eqb k' k) eqn:E.
  - apply String.eqb_eq in E. subst k'.
    destruct (own_property_set_own_same k v (o_props o)) as [e ->]. reflexivity.
  - now rewrite own_property_set_own_other.
Qed.

Lemma lookup_chain_set_own k' v k ps chain :
  lookup_chain k (set_own k' v ps :: chain) =
  if String.eqb k' k then v else lookup_chain k (ps :: chain).
Proof. exact (lookup_obj_set (Obj ps chain) k' v k). Qed.

(** What a key other than [__proto__] reads on the target of [Object.assign]. *)
Lemma lookup_assign_props h kvs o k :
  String.eqb k "__proto__" = false ->
  lookup_property (assign_props h kvs o) k =
  copied_value k kvs (lookup_chain k (o_props o :: copied_chain h kvs (o_chain o))).
Proof.
  intros Hk. revert o. induction kvs as [| [k' v] kvs IH]; intros o; [reflexivity |].
  change (assign_props h ((k', v) :: kvs) o) with (assign_props h kvs (assign_one h o (k', v))).
  rewrite IH. unfold assign_one. cbn [fst snd copied_value copied_chain].
  destruct (String.eqb k' "__proto__") eqn:Hp.
  - apply String.eqb_eq in Hp. subst k'. rewrite String.eqb_sym, Hk.
    now destruct v.
  - cbn [obj_set o_props o_chain]. now rewrite lookup_chain_set_own.
Qed.

Lemma lookup_shallow_copy h err k :
  String.eqb k "__proto__" = false ->
  lookup_property (shallow_copy h err) k =
  if String.eqb "message" k then message_of h err else copied_property h err k.
Proof.
  intros Hk. unfold shallow_copy. rewrite lookup_obj_set.
  destruct (String.eqb "message" k); [reflexivity |].
  now rewrite lookup_assign_props.
Qed.




(** ** Reads are stable under allocation *)

Lemma obj_at_mono (h h' : heap) l : h ⊆ h' -> is_Some (h !! l) -> obj_at h' l = obj_at h l.
Proof.
  intros Hsub [o Ho]. unfold obj_at.
  now rewrite Ho, (lookup_weaken _ _ _ _ Ho Hsub).
Qed.

Lemma get_mono (h h' : heap) v k : h ⊆ h' -> in_heap h v -> get h' v k = get h v k.
Proof.
  intros Hsub Hin. destruct v; simpl in *; try reflexivity.
  now rewrite (obj_at_mono h h').
Qed.

Lemma own_enumerable_mono (h h' : heap) v :
  h ⊆ h' -> in_heap h v -> own_enumerable h' v = own_enumerable h v.
Proof.
  intros Hsub Hin. destruct v; simpl in *; try reflexivity.
  now rewrite (obj_at_mono h h').
Qed.

Lemma has_name_mono (h h' : heap) err tag :
  h ⊆ h' -> in_heap h err -> has_name h' err tag = has_name h err tag.
Proof. intros. unfold has_name. now rewrite (get_mono h h'). Qed.

Lemma has_code_mono (h h' : heap) err c :
  h ⊆ h' -> in_heap h err -> has_code h' err c = has_code h err c.
Proof. intros. unfold has_code. now rewrite (get_mono h h'). Qed.

Lemma field_message_mono (h h' : heap) e m :
  h ⊆ h' -> field_message h e = Some m -> field_message h' e = Some m.
Proof.
  intros Hsub. unfold field_message. destruct e; try discriminate.
  destruct (h !! l) as [o |] eqn:Ho; [| discriminate].
  now rewrite (lookup_weaken _ _ _ _ Ho Hsub).
Qed.

Lemma field_messages_mono (h h' : heap) err msgs :
  h ⊆ h' -> in_heap h err ->
  field_messages h err = Some msgs -> field_messages h' err = Some msgs.
Proof.
  intros Hsub Hin. unfold field_messages. rewrite (get_mono h h') by assumption.
  destruct (get h err "errors") as [[| | | | | le] | |]; try discriminate.
  destruct (h !! le) as [oe |] eqn:Hle; [| discriminate].
  rewrite (lookup_weaken _ _ _ _ Hle Hsub).
  rewrite !mapM_Some. intros HF. eapply Forall2_impl; [exact HF |].
  intros kv m. now apply field_message_mono.
Qed.

Lemma conflict_keys_mono (h h' : heap) err :
  h ⊆ h' -> in_heap h err ->
  (forall kv, get h err "keyValue" = Normal kv -> in_heap h kv) ->
  conflict_keys h' err = conflict_keys h err.
Proof.
  intros Hsub Hin Hkv. unfold conflict_keys. rewrite (get_mono h h') by assumption.
  destruct (get h err "keyValue") as [kv | |] eqn:E; try reflexivity.
  now rewrite (own_enumerable_mono h h') by auto.
Qed.

Lemma get_normal h err k :
  err <> VUndefined -> err <> VNull -> exists x, get h err k = Normal x.
Proof. intros H1 H2. destruct err; simpl; eauto; congruence. Qed.

Lemma has_name_true_inv h err tag :
  has_name h err tag = true ->
  in_heap h err /\ err <> VUndefined /\ err <> VNull /\ get h err "name" = Normal (VStr tag).
Proof.
  unfold has_name. destruct err; simpl; try discriminate.
  unfold obj_at. destruct (h !! l) as [o |] eqn:Ho; simpl.
  - intros H. repeat split; try congruence; [by eexists |].
    destruct (lookup_property o "name"); simpl in H; try discriminate.
    apply String.eqb_eq in H. now subst.
  - discriminate.
Qed.

Lemma has_code_true_inv h err c :
  has_code h err c = true ->
  in_heap h err /\ err <> VUndefined /\ err <> VNull /\ get h err "code" = Normal (VNum c).
Proof.
  unfold has_code. destruct err; simpl; try discriminate.
  unfold obj_at. destruct (h !! l) as [o |] eqn:Ho; simpl.
  - intros H. repeat split; try congruence; [by eexists |].
    destruct (lookup_property o "code"); simpl in H; try discriminate.
    apply Z.eqb_eq in H. now subst.
  - discriminate.
Qed.

(** ** The steps of the middleware *)

Lemma new_AppError_run message statusCode s :
  exists s' l, new_AppError message statusCode s = (s', Normal (VRef l))
    /\ grows s s' /\ st_heap s !! l = None
    /\ st_heap s' !! l = Some (AppError_object message statusCode).
Proof.
  unfold new_AppError.
  destruct (alloc_run (AppError_object message statusCode) s) as (l & Hrun & Hl).
  eexists _, l. split; [exact Hrun |]. simpl.
  repeat split; simpl; [now apply insert_subseteq | exact Hl | apply lookup_insert_eq].
Qed.

Lemma copy_and_log_run err s :
  in_heap (st_heap s) err -> err <> VUndefined -> err <> VNull ->
  exists l, st_heap s !! l = None /\
    copy_and_log err s =
    (mkState (<[l := shallow_copy (st_heap s) err]> (st_heap s))
             (st_console s ++
                [mkLog [VStr "ERROR 💥"; err] (<[l := shallow_copy (st_heap s) err]> (st_heap s))])
             (st_status s) (st_sent s),
     Normal (VRef l)).
Proof.
  intros Hin Hu Hn. exists (fresh (dom (st_heap s))).
  pose proof (fresh_loc_unused (st_heap s)) as Hl. split; [exact Hl |].
  destruct (get_normal (st_heap s) err "message" Hu Hn) as [m Hm].
  unfold copy_and_log, Object_assign_new, bind, read_heap, alloc, Get, SetProp,
    console_error, ret. simpl.
  rewrite (get_mono (st_heap s)); [| now apply insert_subseteq | exact Hin].
  rewrite Hm. simpl. unfold obj_at. rewrite lookup_insert_eq. simpl.
  rewrite insert_insert_eq. unfold shallow_copy, message_of. now rewrite Hm.
Qed.

Lemma rule_CastError_run err error s :
  err <> VUndefined -> err <> VNull ->
  rule_CastError err error s =
  if has_name (st_heap s) err "CastError"
  then new_AppError "Invalid ID format" 400 s
  else (s, Normal error).
Proof.
  intros Hu Hn. destruct (get_normal (st_heap s) err "name" Hu Hn) as [n Hget].
  unfold rule_CastError, has_name, bind, Get. rewrite Hget.
  now destruct (strict_eq n (VStr "CastError")).
Qed.

Lemma rule_DocumentNotFoundError_run err error s :
  err <> VUndefined -> err <> VNull ->
  rule_DocumentNotFoundError err error s =
  if has_name (st_heap s) err "DocumentNotFoundError"
  then new_AppError "Requested document not found" 404 s
  else (s, Normal error).
Proof.
  intros Hu Hn. destruct (get_normal (st_heap s) err "name" Hu Hn) as [n Hget].
  unfold rule_DocumentNotFoundError, has_name, bind, Get. rewrite Hget.
  now destruct (strict_eq n (VStr "DocumentNotFoundError")).
Qed.

Lemma rule_ValidationError_skip err error s :
  err <> VUndefined -> err <> VNull ->
  has_name (st_heap s) err "ValidationError" = false ->
  rule_ValidationError err error s = (s, Normal error).
Proof.
  intros Hu Hn. destruct (get_normal (st_heap s) err "name" Hu Hn) as [n Hget].
  unfold rule_ValidationError, has_name, bind, Get. rewrite Hget. now intros ->.
Qed.

Lemma join_elements_strings ss : join_elements (map VStr ss) = Normal ss.
Proof. induction ss as [| x ss IH]; simpl; [reflexivity | now rewrite IH]. Qed.

Lemma Array_join_strings sep ss s :
  Array_join sep (map VStr ss) s = (s, Normal (String.concat sep ss)).
Proof. unfold Array_join. now rewrite join_elements_strings. Qed.

Lemma field_message_get h e m : field_message h e = Some m -> get h e "message" = Normal (VStr m).
Proof.
  unfold field_message. destruct e; try discriminate. simpl. unfold obj_at.
  destruct (h !! l) as [o |]; [| discriminate]. simpl.
  destruct (lookup_property o "message"); try discriminate. congruence.
Qed.

Lemma Array_map_messages (kvs : list (string * value)) msgs s :
  Forall2 (fun kv m => field_message (st_heap s) (snd kv) = Some m) kvs msgs ->
  Array_map (fun e => Get e "message") (map snd kvs) s = (s, Normal (map VStr msgs)).
Proof.
  induction 1 as [| kv m kvs msgs Hm _ IH]; simpl; [reflexivity |].
  unfold bind at 1. unfold Get at 1. rewrite (field_message_get _ _ _ Hm).
  unfold bind at 1. now rewrite IH.
Qed.

Lemma rule_ValidationError_fire err error s msgs :
  has_name (st_heap s) err "ValidationError" = true ->
  field_messages (st_heap s) err = Some msgs ->
  rule_ValidationError err error s = new_AppError (String.concat ". " msgs) 400 s.
Proof.
  intros Hname Hmsgs.
  destruct (has_name_true_inv _ _ _ Hname) as (_ & _ & _ & Hget).
  unfold field_messages in Hmsgs.
  destruct (get (st_heap s) err "errors") as [[| | | | | le] | |] eqn:Hle; try discriminate.
  destruct (st_heap s !! le) as [oe |] eqn:Hoe; [| discriminate].
  apply mapM_Some in Hmsgs.
  unfold rule_ValidationError.
  rewrite (bind_run _ _ s s (VStr "ValidationError")) by (unfold Get; now rewrite Hget).
  simpl.
  rewrite (bind_run _ _ s s (VRef le)) by (unfold Get; now rewrite Hle).
  rewrite (bind_run _ _ s s (map snd (enumerable_props oe))).
  2:{ unfold Object_values. simpl. unfold obj_at. now rewrite Hoe. }
  rewrite (bind_run _ _ s s (map VStr msgs)) by now apply Array_map_messages.
  now rewrite (bind_run _ _ s s (String.concat ". " msgs)) by apply Array_join_strings.
Qed.

Lemma rule_duplicate_key_skip err error s :
  err <> VUndefined -> err <> VNull ->
  has_code (st_heap s) err 11000 = false ->
  rule_duplicate_key err error s = (s, Normal error).
Proof.
  intros Hu Hn. destruct (get_normal (st_heap s) err "code" Hu Hn) as [n Hget].
  unfold rule_duplicate_key, has_code, bind, Get. rewrite Hget. now intros ->.
Qed.

Lemma truthy_own_enumerable h v :
  truthy v = true -> exists kvs, own_enumerable h v = Normal kvs.
Proof. destruct v; simpl; try discriminate; eauto. Qed.

Lemma rule_duplicate_key_fire err error s :
  has_code (st_heap s) err 11000 = true ->
  exists s' l, rule_duplicate_key err error s = (s', Normal (VRef l))
    /\ grows s s' /\ st_heap s !! l = None
    /\ st_heap s' !! l =
       Some (AppError_object
               ("Duplicate field value: " +:+
                String.concat ", " (conflict_keys (st_heap s) err)) 400).
Proof.
  intros Hcode.
  destruct (has_code_true_inv _ _ _ Hcode) as (_ & Hu & Hn & Hget).
  destruct (get_normal (st_heap s) err "keyValue" Hu Hn) as [kv Hkv].
  unfold rule_duplicate_key.
  rewrite (bind_run _ _ s s (VNum 11000)) by (unfold Get; now rewrite Hget).
  simpl.
  rewrite (bind_run _ _ s s kv) by (unfold Get; now rewrite Hkv).
  unfold conflict_keys. rewrite Hkv.
  destruct (truthy kv) eqn:Htr.
  - destruct (truthy_own_enumerable (st_heap s) kv Htr) as [kvs Hkvs]. rewrite Hkvs.
    rewrite (bind_run _ _ s s kv) by reflexivity.
    rewrite (bind_run _ _ s s (map fst kvs)) by (unfold Object_keys; now rewrite Hkvs).
    rewrite (bind_run _ _ s s (String.concat ", " (map fst kvs)))
      by apply Array_join_strings.
    apply new_AppError_run.
  - destruct (alloc_run empty_object s) as (l0 & Hrun & Hl0).
    set (s0 := mkState (<[l0 := empty_object]> (st_heap s)) (st_console s) (st_status s)
                       (st_sent s)) in Hrun.
    rewrite (bind_run _ _ _ _ _ Hrun).
    assert (Hg : grows s s0) by (repeat split; simpl; now apply insert_subseteq).
    rewrite (bind_run _ _ s0 s0 []).
    2:{ unfold Object_keys. simpl. unfold obj_at. now rewrite lookup_insert_eq. }
    rewrite (bind_run _ _ s0 s0 (String.concat ", " []))
      by apply (Array_join_strings ", " []).
    destruct (new_AppError_run ("Duplicate field value: " +:+ String.concat ", " []) 400 s0)
      as (s' & l & Hrun' & Hg' & Hl & Hl').
    exists s', l. split; [exact Hrun' |]. split; [eapply grows_trans; eauto |].
    split; [| exact Hl'].
    eapply lookup_weaken_None; [exact Hl | apply Hg].
Qed.

(** The response step on the object [o]: the status is stored, and the
    response is written unless the transport refuses the status. *)
Lemma respond_run l o s :
  st_heap s !! l = Some o ->
  respond (VRef l) s =
  match status_verdict (r_status (response_of o)) with
  | Accepted =>
      (mkState (st_heap s) (st_console s) (r_status (response_of o))
               (st_sent s ++ [response_of o]), Normal tt)
  | Refused =>
      (mkState (st_heap s) (st_console s) (r_status (response_of o)) (st_sent s),
       Throw RangeError)
  | NotModelled =>
      (mkState (st_heap s) (st_console s) (r_status (response_of o)) (st_sent s),
       Unmodelled)
  end.
Proof.
  intros Ho. unfold respond, bind, Get, res_status, res_json. simpl.
  unfold obj_at. rewrite Ho. simpl.
  now destruct (status_verdict (js_or (lookup_property o "statusCode") (VNum 500))).
Qed.

Lemma fired_outcome message statusCode s error :
  exists s' error', new_AppError message statusCode s = (s', Normal error')
    /\ rule_outcome true (AppError_object message statusCode) s error s' error'.
Proof.
  destruct (new_AppError_run message statusCode s) as (s' & l & Hrun & Hg & Hl & Hl').
  exists s', (VRef l). repeat split; try apply Hg; eauto.
Qed.

Lemma rule_CastError_step err error s :
  err <> VUndefined -> err <> VNull ->
  exists s' error', rule_CastError err error s = (s', Normal error')
    /\ rule_outcome (has_name (st_heap s) err "CastError")
                    (AppError_object "Invalid ID format" 400) s error s' error'.
Proof.
  intros Hu Hn. rewrite rule_CastError_run by assumption.
  destruct (has_name (st_heap s) err "CastError").
  - apply fired_outcome.
  - exists s, error. repeat split; reflexivity.
Qed.

Lemma rule_ValidationError_step err error s :
  err <> VUndefined -> err <> VNull ->
  (has_name (st_heap s) err "ValidationError" = true ->
   is_Some (field_messages (st_heap s) err)) ->
  exists s' error', rule_ValidationError err error s = (s', Normal error')
    /\ rule_outcome (has_name (st_heap s) err "ValidationError")
         (AppError_object
            (String.concat ". " (default [] (field_messages (st_heap s) err))) 400)
         s error s' error'.
Proof.
  intros Hu Hn Hshape.
  destruct (has_name (st_heap s) err "ValidationError") eqn:Hname.
  - destruct (Hshape eq_refl) as [msgs Hmsgs].
    rewrite (rule_ValidationError_fire _ _ _ msgs) by assumption.
    rewrite Hmsgs. simpl. apply fired_outcome.
  - rewrite rule_ValidationError_skip by assumption.
    exists s, error. repeat split; reflexivity.
Qed.

Lemma rule_duplicate_key_step err error s :
  err <> VUndefined -> err <> VNull ->
  exists s' error', rule_duplicate_key err error s = (s', Normal error')
    /\ rule_outcome (has_code (st_heap s) err 11000)
         (AppError_object
            ("Duplicate field value: " +:+
             String.concat ", " (conflict_keys (st_heap s) err)) 400)
         s error s' error'.
Proof.
  intros Hu Hn.
  destruct (has_code (st_heap s) err 11000) eqn:Hcode.
  - destruct (rule_duplicate_key_fire err error s Hcode) as (s' & l & Hrun & Hg & Hl & Hl').
    exists s', (VRef l). repeat split; try apply Hg; eauto.
  - rewrite rule_duplicate_key_skip by assumption.
    exists s, error. repeat split; reflexivity.
Qed.

Lemma rule_DocumentNotFoundError_step err error s :
  err <> VUndefined -> err <> VNull ->
  exists s' error', rule_DocumentNotFoundError err error s = (s', Normal error')
    /\ rule_outcome (has_name (st_heap s) err "DocumentNotFoundError")
                    (AppError_object "Requested document not found" 404) s error s' error'.
Proof.
  intros Hu Hn. rewrite rule_DocumentNotFoundError_run by assumption.
  destruct (has_name (st_heap s) err "DocumentNotFoundError").
  - apply fired_outcome.
  - exists s, error. repeat split; reflexivity.
Qed.

(** The run of lines 113-141 on an error value of the heap whose validation
    payload, if the name asks for one, has the expected shape. *)
Lemma classify_run err s :
  in_heap (st_heap s) err -> err <> VUndefined -> err <> VNull ->
  (has_name (st_heap s) err "ValidationError" = true ->
   is_Some (field_messages (st_heap s) err)) ->
  (has_name (st_heap s) err "DocumentNotFoundError" = false ->
   has_code (st_heap s) err 11000 = true ->
   forall kv, get (st_heap s) err "keyValue" = Normal kv -> in_heap (st_heap s) kv) ->
  exists s' l hlog,
    classify err s = (s', Normal (VRef l))
    /\ st_heap s ⊆ st_heap s' /\ st_heap s !! l = None
    /\ st_heap s' !! l = Some (classified_object (st_heap s) err)
    /\ st_console s' = st_console s ++ [mkLog [VStr "ERROR 💥"; err] hlog]
    /\ st_heap s ⊆ hlog
    /\ st_sent s' = st_sent s.
Proof.
  intros Hin Hu Hn Hshape Hpayload. set (h := st_heap s) in *.
  destruct (copy_and_log_run err s Hin Hu Hn) as (l1 & Hl1 & Hrun1). fold h in Hl1, Hrun1.
  set (h1 := <[l1 := shallow_copy h err]> h) in Hrun1.
  set (s1 := mkState h1 _ _ _) in Hrun1.
  assert (Hsub1 : h ⊆ st_heap s1) by (simpl; now apply insert_subseteq).
  destruct (rule_CastError_step err (VRef l1) s1 Hu Hn) as (s2 & e2 & Hrun2 & Hg2 & Ho2).
  assert (Hsub2 : h ⊆ st_heap s2) by (etrans; [exact Hsub1 | apply Hg2]).
  destruct (rule_ValidationError_step err e2 s2 Hu Hn) as (s3 & e3 & Hrun3 & Hg3 & Ho3).
  { rewrite (has_name_mono h) by assumption. intros Hv.
    destruct (Hshape Hv) as [msgs Hmsgs]. exists msgs.
    now apply (field_messages_mono h). }
  assert (Hsub3 : h ⊆ st_heap s3) by (etrans; [exact Hsub2 | apply Hg3]).
  destruct (rule_duplicate_key_step err e3 s3 Hu Hn) as (s4 & e4 & Hrun4 & Hg4 & Ho4).
  assert (Hsub4 : h ⊆ st_heap s4) by (etrans; [exact Hsub3 | apply Hg4]).
  destruct (rule_DocumentNotFoundError_step err e4 s4 Hu Hn) as (s5 & e5 & Hrun5 & Hg5 & Ho5).
  assert (Hsub5 : h ⊆ st_heap s5) by (etrans; [exact Hsub4 | apply Hg5]).
  assert (Hg15 : grows s1 s5) by eauto using grows_trans.
  assert (Hclass : classify err s = (s5, Normal e5)).
  { unfold classify.
    rewrite (bind_run _ _ _ _ _ Hrun1), (bind_run _ _ _ _ _ Hrun2),
      (bind_run _ _ _ _ _ Hrun3), (bind_run _ _ _ _ _ Hrun4). exact Hrun5. }
  rewrite (has_name_mono h) in Ho2, Ho3, Ho5 by assumption.
  rewrite (has_code_mono h) in Ho4 by assumption.
  assert (Hfinal : exists l, e5 = VRef l /\ h !! l = None
                             /\ st_heap s5 !! l = Some (classified_object h err)).
  { unfold classified_object.
    destruct (has_name h err "DocumentNotFoundError") eqn:B4.
    { destruct Ho5 as (l & -> & Hl & Hl'). exists l. repeat split; [| exact Hl'].
      eapply lookup_weaken_None; eauto. }
    destruct Ho5 as [-> ->].
    destruct (has_code h err 11000) eqn:B3.
    { destruct Ho4 as (l & -> & Hl & Hl'). exists l. repeat split.
      - eapply lookup_weaken_None; eauto.
      - rewrite Hl'. now rewrite (conflict_keys_mono h) by auto. }
    destruct Ho4 as [-> ->].
    destruct (has_name h err "ValidationError") eqn:B2.
    { destruct Ho3 as (l & -> & Hl & Hl'). exists l. repeat split.
      - eapply lookup_weaken_None; eauto.
      - rewrite Hl'. destruct (Hshape eq_refl) as [msgs Hmsgs].
        now rewrite Hmsgs, (field_messages_mono h (st_heap s2) err msgs). }
    destruct Ho3 as [-> ->].
    destruct (has_name h err "CastError") eqn:B1.
    { destruct Ho2 as (l & -> & Hl & Hl'). exists l. repeat split; [| exact Hl'].
      eapply lookup_weaken_None; eauto. }
    destruct Ho2 as [-> ->].
    exists l1. repeat split; [exact Hl1 |]. simpl. apply lookup_insert_eq. }
  destruct Hfinal as (l & -> & Hl & Hl').
  exists s5, l, h1. split; [exact Hclass |]. split; [exact Hsub5 |].
  split; [exact Hl |]. split; [exact Hl' |].
  destruct Hg15 as (_ & Hc & _ & Hs). rewrite Hc, Hs. simpl.
  repeat split. now apply insert_subseteq.
Qed.

(** The run of the middleware on such an error: classification succeeds,
    and the transport decides on the status whether the answer is written. *)
Lemma errorMiddleware_run err s :
  in_heap (st_heap s) err -> err <> VUndefined -> err <> VNull ->
  (has_name (st_heap s) err "ValidationError" = true ->
   is_Some (field_messages (st_heap s) err)) ->
  (has_name (st_heap s) err "DocumentNotFoundError" = false ->
   has_code (st_heap s) err 11000 = true ->
   forall kv, get (st_heap s) err "keyValue" = Normal kv -> in_heap (st_heap s) kv) ->
  let r := response_of (classified_object (st_heap s) err) in
  exists s',
    errorMiddleware err s =
      (s', match status_verdict (r_status r) with
           | Accepted => Normal tt
           | Refused => Throw RangeError
           | NotModelled => Unmodelled
           end)
    /\ st_sent s' = st_sent s ++ match status_verdict (r_status r) with
                                 | Accepted => [r]
                                 | _ => []
                                 end.
Proof.
  intros Hin Hu Hn Hshape Hpayload r.
  destruct (classify_run err s Hin Hu Hn Hshape Hpayload)
    as (s1 & l & hlog & Hrun & _ & _ & Hl & _ & _ & Hsent).
  unfold errorMiddleware. rewrite (bind_run _ _ _ _ _ Hrun).
  rewrite (respond_run l _ s1 Hl). fold r.
  destruct (status_verdict (r_status r)); eexists; (split; [reflexivity |]);
    simpl; rewrite Hsent; [reflexivity | now rewrite app_nil_r ..].
Qed.

(** The same run when the transport accepts the status: the error is
    answered with the response [r]. *)
Lemma errorMiddleware_answers err s r :
  in_heap (st_heap s) err -> err <> VUndefined -> err <> VNull ->
  (has_name (st_heap s) err "ValidationError" = true ->
   is_Some (field_messages (st_heap s) err)) ->
  (has_name (st_heap s) err "DocumentNotFoundError" = false ->
   has_code (st_heap s) err 11000 = true ->
   forall kv, get (st_heap s) err "keyValue" = Normal kv -> in_heap (st_heap s) kv) ->
  response_of (classified_object (st_heap s) err) = r ->
  status_verdict (r_status r) = Accepted ->
  exists s', errorMiddleware err s = (s', Normal tt) /\ st_sent s' = st_sent s ++ [r].
Proof.
  intros Hin Hu Hn Hshape Hpayload Hr Hok.
  destruct (errorMiddleware_run err s Hin Hu Hn Hshape Hpayload) as (s' & Hrun & Hsent).
  rewrite Hr, Hok in Hrun, Hsent. eauto.
Qed.

Lemma has_name_exclusive h err t1 t2 :
  has_name h err t1 = true -> t1 <> t2 -> has_name h err t2 = false.
Proof.
  intros H1 Hne. destruct (has_name_true_inv _ _ _ H1) as (_ & _ & _ & Hget).
  unfold has_name. rewrite Hget. simpl. now apply String.eqb_neq.
Qed.

(** ** What the middleware leaves alone *)

Lemma copy_and_log_frame err s :
  st_heap s ⊆ st_heap (fst (copy_and_log err s))
  /\ st_sent (fst (copy_and_log err s)) = st_sent s
  /\ (err <> VUndefined -> err <> VNull ->
      st_console (fst (copy_and_log err s)) =
      st_console s ++ [mkLog [VStr "ERROR 💥"; err] (st_heap (fst (copy_and_log err s)))]).
Proof.
  pose proof (fresh_loc_unused (st_heap s)) as Hl.
  unfold copy_and_log, Object_assign_new, bind, read_heap, alloc, Get, SetProp,
    console_error, ret. simpl.
  destruct (get _ err "message") as [m | |] eqn:Hget; simpl.
  - split; [| split; [reflexivity | intros _ _; reflexivity]].
    rewrite insert_insert_eq. now apply insert_subseteq.
  - split; [now apply insert_subseteq | split; [reflexivity |]].
    intros Hu Hn. destruct err; simpl in Hget; congruence.
  - split; [now apply insert_subseteq | split; [reflexivity |]].
    intros Hu Hn. destruct err; simpl in Hget; congruence.
Qed.

Lemma alloc_only_rules err error :
  alloc_only (error <- rule_CastError err error ;;
              error <- rule_ValidationError err error ;;
              error <- rule_duplicate_key err error ;;
              rule_DocumentNotFoundError err error).
Proof.
  apply alloc_only_bind; [apply alloc_only_rule_CastError | intros e1].
  apply alloc_only_bind; [apply alloc_only_rule_ValidationError | intros e2].
  apply alloc_only_bind; [apply alloc_only_rule_duplicate_key | intros e3].
  apply alloc_only_rule_DocumentNotFoundError.
Qed.

Lemma classify_frame err s :
  st_heap s ⊆ st_heap (fst (classify err s))
  /\ st_sent (fst (classify err s)) = st_sent s
  /\ (err <> VUndefined -> err <> VNull ->
      exists hlog, st_heap s ⊆ hlog /\
        st_console (fst (classify err s)) =
        st_console s ++ [mkLog [VStr "ERROR 💥"; err] hlog]).
Proof.
  destruct (copy_and_log_frame err s) as (Hsub & Hsent & Hlog).
  unfold classify.
  destruct (copy_and_log err s) as [s1 [error | |]] eqn:Hrun; simpl in *;
    [ rewrite (bind_run _ _ _ _ _ Hrun)
    | rewrite (bind_throw _ _ _ _ _ Hrun)
    | rewrite (bind_unmodelled _ _ _ _ Hrun) ]; simpl.
  - destruct (alloc_only_rules err error s1) as (Hsub' & Hcons' & _ & Hsent').
    split; [etrans; [exact Hsub | exact Hsub'] | split; [congruence |]].
    intros Hu Hn. exists (st_heap s1). split; [exact Hsub |].
    rewrite Hcons'. now apply Hlog.
  - split; [assumption | split; [assumption |]]. intros Hu Hn. eauto.
  - split; [assumption | split; [assumption |]]. intros Hu Hn. eauto.
Qed.

Lemma respond_frame error s :
  st_heap (fst (respond error s)) = st_heap s
  /\ st_console (fst (respond error s)) = st_console s.
Proof.
  unfold respond, bind, Get, res_status, res_json.
  destruct (get (st_heap s) error "statusCode"); simpl; try done.
  destruct (get (st_heap s) error "message"); simpl; try done.
  now destruct (status_verdict _).
Qed.

(** ** The recognized shapes *)

Lemma append_empty_r (s : string) : s +:+ "" = s.
Proof.
  induction s as [| c s IH]; [reflexivity |].
  change (String c (s +:+ "") = String c s). now rewrite IH.
Qed.

Lemma append_assoc (s1 s2 s3 : string) : (s1 +:+ s2) +:+ s3 = s1 +:+ (s2 +:+ s3).
Proof.
  induction s1 as [| c s1 IH]; [reflexivity |].
  change (String c ((s1 +:+ s2) +:+ s3) = String c (s1 +:+ (s2 +:+ s3))). now rewrite IH.
Qed.

Lemma contains_concat sep (ks : list string) k :
  k ∈ ks -> contains (String.concat sep ks) k.
Proof.
  induction ks as [| k0 ks IH]; intros Hin; [by apply elem_of_nil in Hin |].
  apply elem_of_cons in Hin as [-> | Hin].
  - destruct ks as [| k1 ks]; simpl.
    + exists "", "". simpl. now rewrite append_empty_r.
    + exists "", (sep +:+ String.concat sep (k1 :: ks)). reflexivity.
  - destruct ks as [| k1 ks]; [by apply elem_of_nil in Hin |].
    destruct (IH Hin) as (pre & post & Heq).
    exists (k0 +:+ sep +:+ pre), post.
    change (String.concat sep (k0 :: k1 :: ks))
      with (k0 +:+ sep +:+ String.concat sep (k1 :: ks)).
    rewrite Heq. now rewrite !append_assoc.
Qed.

Lemma contains_prefixed p s k : contains s k -> contains (p +:+ s) k.
Proof.
  intros (pre & post & ->). exists (p +:+ pre), post. now rewrite append_assoc.
Qed.

(** C3, as amended: for every raw error whose name tag is 'CastError' and
    whose code is not 11000, the middleware answers with status 400 and the
    message 'Invalid ID format', the literal of line 122, which has no full
    stop at its end. *)
Theorem CastError_response s err :
  has_name (st_heap s) err "CastError" = true ->
  has_code (st_heap s) err 11000 = false ->
  responds_with s err 400 "Invalid ID format".
Proof.
  intros Hname Hcode.
  destruct (has_name_true_inv _ _ _ Hname) as (Hin & Hu & Hn & _).
  apply errorMiddleware_answers; [exact Hin | exact Hu | exact Hn | | | | reflexivity].
  - rewrite (has_name_exclusive _ _ _ "ValidationError" Hname); [discriminate | done].
  - intros _ Hc. congruence.
  - unfold classified_object.
    rewrite (has_name_exclusive _ _ _ "DocumentNotFoundError" Hname) by done.
    rewrite Hcode.
    rewrite (has_name_exclusive _ _ _ "ValidationError" Hname) by done.
    now rewrite Hname.
Qed.

Lemma CastError_response_witness :
  responds_with (a_state heap_CastError) the_error 400 "Invalid ID format".
Proof. apply CastError_response; reflexivity. Defined.

(** C3 as stated fails: an error tagged 'CastError' that also carries the
    code 11000 is answered by the duplicate-key rule, and a plain 'CastError'
    is answered without the full stop. *)
Lemma CastError_response_counterexample :
  has_name heap_CastError_11000 the_error "CastError" = true
  /\ ~ responds_with (a_state heap_CastError_11000) the_error 400 "Invalid ID format."
  /\ has_name heap_CastError the_error "CastError" = true
  /\ ~ responds_with (a_state heap_CastError) the_error 400 "Invalid ID format.".
Proof.
  split; [reflexivity |]. split; [| split; [reflexivity |]].
  - intros (s' & Hrun & Hsent).
    assert (Hc : st_sent (fst (errorMiddleware the_error (a_state heap_CastError_11000))) =
                 [mkResponse (VNum 400)
                    [("statusCode", VNum 400); ("message", VStr "Duplicate field value: ")]])
      by (vm_compute; reflexivity).
    rewrite Hrun in Hc. simpl in Hc. rewrite Hsent in Hc. discriminate Hc.
  - intros (s' & Hrun & Hsent).
    assert (Hc : st_sent (fst (errorMiddleware the_error (a_state heap_CastError))) =
                 [mkResponse (VNum 400)
                    [("statusCode", VNum 400); ("message", VStr "Invalid ID format")]])
      by (vm_compute; reflexivity).
    rewrite Hrun in Hc. simpl in Hc. rewrite Hsent in Hc. discriminate Hc.
Qed.

(** C4, as amended: for every raw error whose name tag is 'ValidationError',
    whose [errors] maps field names to per-field error objects that expose
    the messages [msgs], and whose code is not 11000, the middleware answers
    with status 400 and the messages joined with ". " (with the fallback
    "Something went wrong" when the joined string is empty). *)
Theorem ValidationError_response s err msgs :
  has_name (st_heap s) err "ValidationError" = true ->
  field_messages (st_heap s) err = Some msgs ->
  has_code (st_heap s) err 11000 = false ->
  responds_with s err 400
    (if String.eqb (String.concat ". " msgs) "" then "Something went wrong"
     else String.concat ". " msgs).
Proof.
  intros Hname Hmsgs Hcode.
  destruct (has_name_true_inv _ _ _ Hname) as (Hin & Hu & Hn & _).
  apply errorMiddleware_answers; [exact Hin | exact Hu | exact Hn | | | | reflexivity].
  - intros _. now exists msgs.
  - intros _ Hc. congruence.
  - unfold classified_object.
    rewrite (has_name_exclusive _ _ _ "DocumentNotFoundError" Hname) by done.
    rewrite Hcode, Hname, Hmsgs. unfold response_of, js_or. simpl.
    now destruct (String.eqb (String.concat ". " msgs) "").
Qed.

Lemma ValidationError_response_witness :
  responds_with (a_state heap_ValidationError) the_error 400 "A invalid. B invalid".
Proof.
  apply (ValidationError_response (a_state heap_ValidationError) the_error
           ["A invalid"; "B invalid"]); reflexivity.
Defined.

(** C4 as stated fails: a 'ValidationError' with the fields
    {a: "A invalid", b: "B invalid"} that also carries the code 11000 is
    answered by the duplicate-key rule. *)
Lemma ValidationError_response_counterexample :
  has_name heap_ValidationError_11000 the_error "ValidationError" = true
  /\ field_messages heap_ValidationError_11000 the_error = Some ["A invalid"; "B invalid"]
  /\ ~ responds_with (a_state heap_ValidationError_11000) the_error 400 "A invalid. B invalid".
Proof.
  split; [reflexivity |]. split; [reflexivity |].
  intros (s' & Hrun & Hsent).
  assert (Hc : st_sent (fst (errorMiddleware the_error (a_state heap_ValidationError_11000))) =
               [mkResponse (VNum 400)
                  [("statusCode", VNum 400); ("message", VStr "Duplicate field value: ")]])
    by (vm_compute; reflexivity).
  rewrite Hrun in Hc. simpl in Hc. rewrite Hsent in Hc. discriminate Hc.
Qed.

(** C5, as amended: for every raw error with the code 11000 and a keyValue
    payload, whose name tag is not 'DocumentNotFoundError' and whose
    field-validation payload has its shape if the name tag is
    'ValidationError', the middleware answers with status 400 and the message
    "Duplicate field value: " followed by the keys of the payload joined with
    ", ", so that the message contains every key of the payload. *)
Theorem duplicate_key_response s err lk payload :
  has_code (st_heap s) err 11000 = true ->
  get (st_heap s) err "keyValue" = Normal (VRef lk) ->
  st_heap s !! lk = Some payload ->
  has_name (st_heap s) err "DocumentNotFoundError" = false ->
  (has_name (st_heap s) err "ValidationError" = true ->
   is_Some (field_messages (st_heap s) err)) ->
  let keys := map fst (enumerable_props payload) in
  responds_with s err 400 ("Duplicate field value: " +:+ String.concat ", " keys)
  /\ forall k, k ∈ keys ->
       contains ("Duplicate field value: " +:+ String.concat ", " keys) k.
Proof.
  intros Hcode Hkv Hlk Hnf Hshape keys.
  split; [| intros k Hk; now apply contains_prefixed, contains_concat].
  destruct (has_code_true_inv _ _ _ Hcode) as (Hin & Hu & Hn & _).
  apply errorMiddleware_answers;
    [exact Hin | exact Hu | exact Hn | exact Hshape | | | reflexivity].
  - intros _ _ kv Hkv'. rewrite Hkv in Hkv'. injection Hkv' as <-. simpl. eauto.
  - unfold classified_object.
    rewrite Hnf, Hcode. unfold conflict_keys. rewrite Hkv. simpl.
    unfold obj_at. now rewrite Hlk.
Qed.

Lemma duplicate_key_response_witness :
  responds_with (a_state heap_duplicate) the_error 400 "Duplicate field value: email"
  /\ forall k, k ∈ ["email"] -> contains "Duplicate field value: email" k.
Proof.
  apply (duplicate_key_response (a_state heap_duplicate) the_error 2%positive
           (Obj [("email", mkProperty (VStr "x@y.com") true)] []));
    try reflexivity.
  intros H. discriminate H.
Defined.

(** C5 as stated fails: an error with the code 11000 and the conflict key
    {email: "x@y.com"} that is tagged 'DocumentNotFoundError' is answered by
    the not-found rule, with status 404 and no field name. *)
Lemma duplicate_key_response_counterexample :
  has_code heap_duplicate_not_found the_error 11000 = true
  /\ conflict_keys heap_duplicate_not_found the_error = ["email"]
  /\ ~ (exists message, responds_with (a_state heap_duplicate_not_found) the_error 400 message)
  /\ responds_with (a_state heap_duplicate_not_found) the_error 404
       "Requested document not found".
Proof.
  assert (Hc : errorMiddleware the_error (a_state heap_duplicate_not_found) =
               (fst (errorMiddleware the_error (a_state heap_duplicate_not_found)), Normal tt)
               /\ st_sent (fst (errorMiddleware the_error (a_state heap_duplicate_not_found))) =
                  [mkResponse (VNum 404)
                     [("statusCode", VNum 404);
                      ("message", VStr "Requested document not found")]])
    by (split; vm_compute; reflexivity).
  destruct Hc as [Hrun Hsent].
  split; [reflexivity |]. split; [reflexivity |]. split.
  - intros (message & s' & Hrun' & Hsent').
    rewrite Hrun' in Hsent. simpl in Hsent. rewrite Hsent' in Hsent. discriminate Hsent.
  - eexists. split; [exact Hrun | exact Hsent].
Qed.

(** C6: for every raw error whose name tag is 'DocumentNotFoundError', the
    middleware answers with status 404 and the message
    'Requested document not found', whatever else the error carries: the
    not-found rule is the last of the four. *)
Theorem DocumentNotFoundError_response s err :
  has_name (st_heap s) err "DocumentNotFoundError" = true ->
  responds_with s err 404 "Requested document not found".
Proof.
  intros Hname.
  destruct (has_name_true_inv _ _ _ Hname) as (Hin & Hu & Hn & _).
  apply errorMiddleware_answers; [exact Hin | exact Hu | exact Hn | | | | reflexivity].
  - rewrite (has_name_exclusive _ _ _ "ValidationError" Hname); [discriminate | done].
  - intros Hc. congruence.
  - unfold classified_object. now rewrite Hname.
Qed.

Lemma DocumentNotFoundError_response_witness :
  responds_with (a_state heap_not_found) the_error 404 "Requested document not found".
Proof. apply DocumentNotFoundError_response. reflexivity. Defined.

(** C10, as amended: for every raw error with the code 11000 and no keyValue,
    whose name tag is not 'DocumentNotFoundError' and whose field-validation
    payload has its shape if the name tag is 'ValidationError', the middleware
    completes and answers with status 400 and the message
    "Duplicate field value: ", the field list being empty. *)
Theorem duplicate_key_without_payload s err :
  has_code (st_heap s) err 11000 = true ->
  get (st_heap s) err "keyValue" = Normal VUndefined ->
  has_name (st_heap s) err "DocumentNotFoundError" = false ->
  (has_name (st_heap s) err "ValidationError" = true ->
   is_Some (field_messages (st_heap s) err)) ->
  conflict_keys (st_heap s) err = []
  /\ responds_with s err 400 "Duplicate field value: ".
Proof.
  intros Hcode Hkv Hnf Hshape.
  assert (Hkeys : conflict_keys (st_heap s) err = [])
    by (unfold conflict_keys; now rewrite Hkv).
  split; [exact Hkeys |].
  destruct (has_code_true_inv _ _ _ Hcode) as (Hin & Hu & Hn & _).
  apply errorMiddleware_answers;
    [exact Hin | exact Hu | exact Hn | exact Hshape | | | reflexivity].
  - intros _ _ kv Hkv'. rewrite Hkv in Hkv'. now injection Hkv' as <-.
  - unfold classified_object. now rewrite Hnf, Hcode, Hkeys.
Qed.

Lemma duplicate_key_without_payload_witness :
  conflict_keys heap_duplicate_bare the_error = []
  /\ responds_with (a_state heap_duplicate_bare) the_error 400 "Duplicate field value: ".
Proof.
  apply (duplicate_key_without_payload (a_state heap_duplicate_bare) the_error);
    try reflexivity.
  intros H. discriminate H.
Defined.

(** C10 as stated fails: an error with the code 11000 and no keyValue that is
    tagged 'DocumentNotFoundError' is answered by the not-found rule. *)
Lemma duplicate_key_without_payload_counterexample :
  has_code heap_duplicate_bare_not_found the_error 11000 = true
  /\ get heap_duplicate_bare_not_found the_error "keyValue" = Normal VUndefined
  /\ ~ responds_with (a_state heap_duplicate_bare_not_found) the_error 400
         "Duplicate field value: ".
Proof.
  split; [reflexivity |]. split; [reflexivity |].
  intros (s' & Hrun & Hsent).
  assert (Hc : st_sent (fst (errorMiddleware the_error (a_state heap_duplicate_bare_not_found)))
               = [mkResponse (VNum 404)
                    [("statusCode", VNum 404);
                     ("message", VStr "Requested document not found")]])
    by (vm_compute; reflexivity).
  rewrite Hrun in Hc. simpl in Hc. rewrite Hsent in Hc. discriminate Hc.
Qed.

(** ** Sequential rules: the last match decides *)

Lemma matching_rules_eq h err :
  matching_rules h err =
  (if invalid_identifier_shape h err
   then [mkRule invalid_identifier_shape (fun _ _ => ("Invalid ID format", 400))] else [])
  ++ (if field_validation_shape h err
      then [mkRule field_validation_shape
              (fun h err => (String.concat ". " (default [] (field_messages h err)), 400))]
      else [])
  ++ (if uniqueness_conflict_shape h err
      then [mkRule uniqueness_conflict_shape
              (fun h err => ("Duplicate field value: " +:+
                             String.concat ", " (conflict_keys h err), 400))]
      else [])
  ++ (if not_found_shape h err
      then [mkRule not_found_shape (fun _ _ => ("Requested document not found", 404))]
      else []).
Proof.
  unfold matching_rules, rules_in_order.
  rewrite !filter_cons, filter_nil. simpl.
  destruct (invalid_identifier_shape h err), (field_validation_shape h err),
    (uniqueness_conflict_shape h err), (not_found_shape h err);
    repeat case_decide; try congruence; reflexivity.
Qed.

Lemma cast_and_validation_exclusive h err :
  invalid_identifier_shape h err = true -> field_validation_shape h err = true -> False.
Proof.
  unfold invalid_identifier_shape, field_validation_shape. intros H1 H2.
  rewrite (has_name_exclusive _ _ _ "ValidationError" H1) in H2 by done. discriminate H2.
Qed.

Lemma cast_and_not_found_exclusive h err :
  invalid_identifier_shape h err = true -> not_found_shape h err = true -> False.
Proof.
  unfold invalid_identifier_shape, not_found_shape. intros H1 H2.
  rewrite (has_name_exclusive _ _ _ "DocumentNotFoundError" H1) in H2 by done.
  discriminate H2.
Qed.

Lemma validation_and_not_found_exclusive h err :
  field_validation_shape h err = true -> not_found_shape h err = true -> False.
Proof.
  unfold field_validation_shape, not_found_shape. intros H1 H2.
  apply andb_prop in H1 as [H1 _].
  rewrite (has_name_exclusive _ _ _ "DocumentNotFoundError" H1) in H2 by done.
  discriminate H2.
Qed.

(** C2: the rules are tried one after the other and none assumes that the
    others failed.  For every raw error that matches two or more of the
    recognized shapes, the value of [error] that reaches the response step is
    the [AppError] of the last matching rule in the order invalid-identifier,
    field-validation, uniqueness-conflict, not-found, and the answer carries
    its status and message.  (The conflict payload, when there is one, is a
    value of the heap.) *)
Theorem last_matching_rule_wins s err message statusCode :
  (forall kv, get (st_heap s) err "keyValue" = Normal kv -> in_heap (st_heap s) kv) ->
  (2 <= length (matching_rules (st_heap s) err))%nat ->
  last_matching_result (st_heap s) err = Some (message, statusCode) ->
  (exists s1 l, classify err s = (s1, Normal (VRef l))
                /\ st_heap s1 !! l = Some (AppError_object message statusCode))
  /\ responds_with s err statusCode message.
Proof.
  intros Hpayload Hlen Hlast. set (h := st_heap s) in *.
  unfold last_matching_result in Hlast. rewrite matching_rules_eq in Hlen, Hlast.
  assert (Hgoal : forall b1 b2,
             has_name h err "ValidationError" = b1 ->
             (b1 = true -> is_Some (field_messages h err)) ->
             has_name h err "DocumentNotFoundError" = b2 ->
             has_code h err 11000 = true ->
             classified_object h err = AppError_object message statusCode ->
             response_of (AppError_object message statusCode) =
               mkResponse (VNum statusCode)
                 [("statusCode", VNum statusCode); ("message", VStr message)] ->
             status_verdict (VNum statusCode) = Accepted ->
             (exists s1 l, classify err s = (s1, Normal (VRef l))
                           /\ st_heap s1 !! l = Some (AppError_object message statusCode))
             /\ responds_with s err statusCode message).
  { intros b1 b2 Hb1 Hshape Hb2 Hcode Hobj Hresp Hok.
    destruct (has_code_true_inv _ _ _ Hcode) as (Hin & Hu & Hn & _).
    assert (Hshape' : has_name h err "ValidationError" = true ->
                      is_Some (field_messages h err)) by (intros E; apply Hshape; congruence).
    assert (Hpayload' : has_name h err "DocumentNotFoundError" = false ->
                        has_code h err 11000 = true ->
                        forall kv, get h err "keyValue" = Normal kv -> in_heap h kv)
      by (intros _ _; exact Hpayload).
    split.
    - destruct (classify_run err s Hin Hu Hn Hshape' Hpayload')
        as (s1 & l & hlog & Hrun & _ & _ & Hl & _).
      exists s1, l. split; [exact Hrun |]. fold h in Hl. now rewrite <- Hobj.
    - apply errorMiddleware_answers; try assumption.
      fold h. now rewrite Hobj. }
  destruct (invalid_identifier_shape h err) eqn:B1,
           (field_validation_shape h err) eqn:B2,
           (uniqueness_conflict_shape h err) eqn:B3,
           (not_found_shape h err) eqn:B4;
    simpl in Hlen, Hlast; try lia;
    try (exfalso; eauto using cast_and_validation_exclusive, cast_and_not_found_exclusive,
           validation_and_not_found_exclusive; fail);
    injection Hlast as <- <-;
    unfold invalid_identifier_shape, uniqueness_conflict_shape, not_found_shape in *.
  - (* invalid identifier and uniqueness conflict *)
    apply (Hgoal false false); try done.
    + now apply (has_name_exclusive _ _ "CastError").
    + unfold classified_object. now rewrite B4, B3.
  - (* field validation and uniqueness conflict *)
    unfold field_validation_shape in B2. apply andb_prop in B2 as [B2 B2'].
    apply (Hgoal true false); try done.
    + intros _. now apply bool_decide_eq_true_1 in B2'.
    + unfold classified_object. now rewrite B4, B3.
  - (* uniqueness conflict and not found *)
    apply (Hgoal false true); try done.
    + now apply (has_name_exclusive _ _ "DocumentNotFoundError").
    + unfold classified_object. now rewrite B4.
Qed.

Lemma last_matching_rule_wins_witness :
  (exists s1 l, classify the_error (a_state heap_CastError_11000) = (s1, Normal (VRef l))
                /\ st_heap s1 !! l = Some (AppError_object "Duplicate field value: " 400))
  /\ responds_with (a_state heap_CastError_11000) the_error 400 "Duplicate field value: ".
Proof.
  apply (last_matching_rule_wins (a_state heap_CastError_11000) the_error).
  - intros kv H. injection H as <-. exact I.
  - vm_compute. lia.
  - reflexivity.
Defined.

(** ** The response step *)







(** ** The catch-all route *)

Lemma AppError_has_no_name h l message statusCode tag :
  h !! l = Some (AppError_object message statusCode) -> has_name h (VRef l) tag = false.
Proof. intros Hl. unfold has_name, get, obj_at. now rewrite Hl. Qed.

Lemma AppError_has_no_code h l message statusCode c :
  h !! l = Some (AppError_object message statusCode) -> has_code h (VRef l) c = false.
Proof. intros Hl. unfold has_code, get, obj_at. now rewrite Hl. Qed.

(** An [AppError] passes none of the four tests, and its copy keeps its
    status and its message. *)
Lemma AppError_response h l message statusCode :
  h !! l = Some (AppError_object message statusCode) ->
  response_of (classified_object h (VRef l)) =
  mkResponse (js_or (VNum statusCode) (VNum 500))
    [("statusCode", js_or (VNum statusCode) (VNum 500));
     ("message", js_or (VStr message) (VStr "Something went wrong"))].
Proof.
  intros Hl. unfold classified_object.
  rewrite !(AppError_has_no_name _ _ message statusCode) by assumption.
  rewrite (AppError_has_no_code _ _ message statusCode) by assumption.
  unfold response_of. rewrite !lookup_shallow_copy by reflexivity. simpl.
  unfold message_of, copied_property, assignable_props, own_enumerable, get, obj_at.
  now rewrite Hl.
Qed.

Lemma AppError_run s l message statusCode :
  st_heap s !! l = Some (AppError_object message statusCode) ->
  let r := mkResponse (js_or (VNum statusCode) (VNum 500))
             [("statusCode", js_or (VNum statusCode) (VNum 500));
              ("message", js_or (VStr message) (VStr "Something went wrong"))] in
  exists s',
    errorMiddleware (VRef l) s =
      (s', match status_verdict (r_status r) with
           | Accepted => Normal tt
           | Refused => Throw RangeError
           | NotModelled => Unmodelled
           end)
    /\ st_sent s' = st_sent s ++ match status_verdict (r_status r) with
                                 | Accepted => [r]
                                 | _ => []
                                 end.
Proof.
  intros Hl r.
  destruct (errorMiddleware_run (VRef l) s) as (s' & Hrun & Hsent); try discriminate.
  - simpl. eauto.
  - intros Hv. now rewrite (AppError_has_no_name _ _ message statusCode) in Hv.
  - intros _ Hc. now rewrite (AppError_has_no_code _ _ message statusCode) in Hc.
  - rewrite (AppError_response _ _ _ _ Hl) in Hrun, Hsent. eauto.
Qed.

Lemma errorMiddleware_on_AppError s l message statusCode :
  st_heap s !! l = Some (AppError_object message statusCode) ->
  status_verdict (js_or (VNum statusCode) (VNum 500)) = Accepted ->
  exists s', errorMiddleware (VRef l) s = (s', Normal tt)
    /\ st_sent s' = st_sent s ++
         [mkResponse (js_or (VNum statusCode) (VNum 500))
            [("statusCode", js_or (VNum statusCode) (VNum 500));
             ("message", js_or (VStr message) (VStr "Something went wrong"))]].
Proof.
  intros Hl Hok. destruct (AppError_run s l message statusCode Hl) as (s' & Hrun & Hsent).
  simpl in Hrun, Hsent. rewrite Hok in Hrun, Hsent. eauto.
Qed.

(** C8: for every request that reaches the catch-all, that is, every request
    whose path no route matched, the handler builds an [AppError] with status
    404 and the message "Can't find <url> on this server" and forwards it to
    the error-handling middleware, which answers with status 404 and that
    message; the message contains the url. *)
Theorem unmatched_route_response s req :
  let message := "Can't find " +:+ req_url req +:+ " on this server" in
  (exists s0 l, new_AppError message 404 s = (s0, Normal (VRef l))
     /\ st_heap s0 !! l = Some (AppError_object message 404)
     /\ unmatched_route req s = errorMiddleware (VRef l) s0)
  /\ (exists s', unmatched_route req s = (s', Normal tt)
        /\ st_sent s' = st_sent s ++
             [mkResponse (VNum 404) [("statusCode", VNum 404); ("message", VStr message)]])
  /\ contains message (req_url req).
Proof.
  intros message.
  destruct (new_AppError_run message 404 s) as (s0 & l & Hrun0 & Hg & Hl & Hl').
  assert (Hroute : unmatched_route req s = errorMiddleware (VRef l) s0).
  { unfold unmatched_route, catchAll, forward_failure. fold message.
    now rewrite (bind_run _ _ _ _ _ Hrun0). }
  split; [exists s0, l; auto |]. split.
  - destruct (errorMiddleware_on_AppError s0 l message 404 Hl' eq_refl)
      as (s' & Hrun & Hsent).
    exists s'. rewrite Hroute. split; [exact Hrun |].
    destruct Hg as (_ & _ & _ & Hs). rewrite Hsent, Hs. reflexivity.
  - exists "Can't find ", " on this server". reflexivity.
Qed.

(** Routes 1 and 2 of the demo: a plain [Error] reaches the middleware. *)
Example plain_error_is_answered :
  responds_with (a_state heap_plain_error) the_error 500 "Synchronous error thrown!".
Proof. eexists. split; vm_compute; reflexivity. Qed.

(** The unmatched route [/foo] of section 8. *)
Example unmatched_foo :
  st_sent (fst (unmatched_route (mkRequest "GET" "/foo") (a_state ∅))) =
  [mkResponse (VNum 404)
     [("statusCode", VNum 404); ("message", VStr "Can't find /foo on this server")]].
Proof. vm_compute. reflexivity. Qed.

(** ** The original error is left as it was *)

Lemma bind_inv {A B} (m : M A) (f : A -> M B) s s' b :
  bind m f s = (s', Normal b) -> exists s1 a, m s = (s1, Normal a) /\ f a s1 = (s', Normal b).
Proof. unfold bind. destruct (m s) as [s1 [a | |]]; intros H; try discriminate; eauto. Qed.

Lemma reads_only_Get v k : reads_only (Get v k).
Proof. intros s s' c H. unfold Get in H. now injection H as <- _. Qed.

Lemma reads_only_Object_values v : reads_only (Object_values v).
Proof. intros s s' c H. unfold Object_values in H. now injection H as <- _. Qed.

Lemma reads_only_Object_keys v : reads_only (Object_keys v).
Proof. intros s s' c H. unfold Object_keys in H. now injection H as <- _. Qed.

Lemma reads_only_Array_join sep vs : reads_only (Array_join sep vs).
Proof. intros s s' c H. unfold Array_join in H. now injection H as <- _. Qed.

Lemma reads_only_Array_map {A B} (f : A -> M B) l :
  (forall a, reads_only (f a)) -> reads_only (Array_map f l).
Proof.
  intros Hf. induction l as [| x l IH]; intros s s' c H; simpl in H.
  - unfold ret in H. now injection H as <- _.
  - unfold bind in H. destruct (f x s) as [s1 [y | |]] eqn:Hx;
      apply Hf in Hx; subst s1; try (now injection H as <- _).
    destruct (Array_map f l s) as [s2 [ys | |]] eqn:Hl;
      apply IH in Hl; subst s2; unfold ret in H; now injection H as <- _.
Qed.

Lemma new_AppError_fresh message statusCode s s' e :
  new_AppError message statusCode s = (s', Normal e) ->
  exists l, e = VRef l /\ st_heap s !! l = None.
Proof.
  unfold new_AppError, alloc. intros H. injection H as _ <-.
  eexists. split; [reflexivity | apply fresh_loc_unused].
Qed.

Lemma copy_and_log_fresh err s s' e :
  copy_and_log err s = (s', Normal e) -> exists l, e = VRef l /\ st_heap s !! l = None.
Proof.
  unfold copy_and_log, Object_assign_new, bind, read_heap, alloc, Get, SetProp,
    console_error, ret. simpl.
  destruct (get _ err "message"); simpl; intros H; try discriminate H.
  injection H as _ <-. eexists. split; [reflexivity | apply fresh_loc_unused].
Qed.

Lemma rule_CastError_result err error s s' e :
  rule_CastError err error s = (s', Normal e) -> same_or_new s error e.
Proof.
  unfold rule_CastError. intros H. apply bind_inv in H as (s1 & n & Hget & H).
  apply reads_only_Get in Hget. subst s1.
  destruct (strict_eq n (VStr "CastError")).
  - right. eapply new_AppError_fresh; eauto.
  - left. unfold ret in H. now injection H as _ <-.
Qed.

Lemma rule_DocumentNotFoundError_result err error s s' e :
  rule_DocumentNotFoundError err error s = (s', Normal e) -> same_or_new s error e.
Proof.
  unfold rule_DocumentNotFoundError. intros H. apply bind_inv in H as (s1 & n & Hget & H).
  apply reads_only_Get in Hget. subst s1.
  destruct (strict_eq n (VStr "DocumentNotFoundError")).
  - right. eapply new_AppError_fresh; eauto.
  - left. unfold ret in H. now injection H as _ <-.
Qed.

Lemma rule_ValidationError_result err error s s' e :
  rule_ValidationError err error s = (s', Normal e) -> same_or_new s error e.
Proof.
  unfold rule_ValidationError. intros H. apply bind_inv in H as (s1 & n & Hget & H).
  apply reads_only_Get in Hget. subst s1.
  destruct (strict_eq n (VStr "ValidationError")).
  - right.
    apply bind_inv in H as (s1 & errors & H1 & H). apply reads_only_Get in H1. subst s1.
    apply bind_inv in H as (s1 & vals & H1 & H). apply reads_only_Object_values in H1. subst s1.
    apply bind_inv in H as (s1 & msgs & H1 & H).
    apply reads_only_Array_map in H1; [| intros a; apply reads_only_Get]. subst s1.
    apply bind_inv in H as (s1 & messages & H1 & H). apply reads_only_Array_join in H1.
    subst s1. eapply new_AppError_fresh; eauto.
  - left. unfold ret in H. now injection H as _ <-.
Qed.

Lemma rule_duplicate_key_result err error s s' e :
  rule_duplicate_key err error s = (s', Normal e) -> same_or_new s error e.
Proof.
  unfold rule_duplicate_key. intros H. apply bind_inv in H as (s1 & c & Hget & H).
  apply reads_only_Get in Hget. subst s1.
  destruct (strict_eq c (VNum 11000)).
  - right.
    apply bind_inv in H as (s1 & kv & H1 & H). apply reads_only_Get in H1. subst s1.
    apply bind_inv in H as (s1 & payload & H1 & H).
    assert (Hg : st_heap s ⊆ st_heap s1).
    { destruct (truthy kv).
      - unfold ret in H1. now injection H1 as <- _.
      - pose proof (alloc_only_alloc empty_object s) as Hg. rewrite H1 in Hg. apply Hg. }
    apply bind_inv in H as (s2 & keys & H2 & H). apply reads_only_Object_keys in H2. subst s2.
    apply bind_inv in H as (s2 & field & H2 & H). apply reads_only_Array_join in H2. subst s2.
    apply new_AppError_fresh in H as (l & -> & Hl).
    exists l. split; [reflexivity |]. eapply lookup_weaken_None; eauto.
  - left. unfold ret in H. now injection H as _ <-.
Qed.

Lemma same_or_new_step (s0 s : state) error error' :
  st_heap s0 ⊆ st_heap s ->
  (exists l, error = VRef l /\ st_heap s0 !! l = None) ->
  same_or_new s error error' ->
  exists l, error' = VRef l /\ st_heap s0 !! l = None.
Proof.
  intros Hsub Hold [-> | (l & -> & Hl)]; [exact Hold |].
  exists l. split; [reflexivity |]. eapply lookup_weaken_None; eauto.
Qed.

(** The classified error is always an object of the run's own making. *)
Lemma classify_result_fresh err s s' error :
  classify err s = (s', Normal error) -> exists l, error = VRef l /\ st_heap s !! l = None.
Proof.
  unfold classify. intros H.
  apply bind_inv in H as (s1 & e1 & H1 & H).
  apply bind_inv in H as (s2 & e2 & H2 & H).
  apply bind_inv in H as (s3 & e3 & H3 & H).
  apply bind_inv in H as (s4 & e4 & H4 & H).
  destruct (copy_and_log_frame err s) as (Hsub1 & _). rewrite H1 in Hsub1. simpl in Hsub1.
  pose proof (alloc_only_rule_CastError err e1 s1) as (Hsub2 & _).
  rewrite H2 in Hsub2. simpl in Hsub2.
  pose proof (alloc_only_rule_ValidationError err e2 s2) as (Hsub3 & _).
  rewrite H3 in Hsub3. simpl in Hsub3.
  pose proof (alloc_only_rule_duplicate_key err e3 s3) as (Hsub4 & _).
  rewrite H4 in Hsub4. simpl in Hsub4.
  apply copy_and_log_fresh in H1.
  apply rule_CastError_result in H2. apply rule_ValidationError_result in H3.
  apply rule_duplicate_key_result in H4. apply rule_DocumentNotFoundError_result in H.
  assert (Hs2 : st_heap s ⊆ st_heap s2) by (etrans; eauto).
  assert (Hs3 : st_heap s ⊆ st_heap s3) by (etrans; eauto).
  assert (Hs4 : st_heap s ⊆ st_heap s4) by (etrans; eauto).
  eauto using same_or_new_step.
Qed.

(** C9: for every error passed to the middleware, the run leaves every object
    of the incoming heap as it was, the fields of the error among them, since
    it writes to objects of its own making only; what [console.error] is given
    (for an error that is not null or undefined, as the routing layer passes
    them) is the original value [err], printed from a heap in which every
    object of the incoming heap is as it was; and the classified error that
    reaches the response step is another object, new in the run. *)
Theorem original_error_untouched s err :
  let s' := fst (errorMiddleware err s) in
  (forall l o, st_heap s !! l = Some o -> st_heap s' !! l = Some o)
  /\ (err <> VUndefined -> err <> VNull ->
      exists hlog,
        st_console s' = st_console s ++ [mkLog [VStr "ERROR 💥"; err] hlog]
        /\ forall l o, st_heap s !! l = Some o -> hlog !! l = Some o)
  /\ (forall s1 error, classify err s = (s1, Normal error) ->
      exists l, error = VRef l /\ st_heap s !! l = None
                /\ (in_heap (st_heap s) err -> err <> error)).
Proof.
  intros s'. subst s'.
  assert (Hframe : st_heap s ⊆ st_heap (fst (errorMiddleware err s))
                   /\ st_console (fst (errorMiddleware err s)) =
                      st_console (fst (classify err s))).
  { unfold errorMiddleware.
    destruct (classify_frame err s) as (Hsub & _).
    destruct (classify err s) as [s1 [error | |]] eqn:Hclass; simpl in Hsub;
      [ rewrite (bind_run _ _ _ _ _ Hclass)
      | rewrite (bind_throw _ _ _ _ _ Hclass)
      | rewrite (bind_unmodelled _ _ _ _ Hclass) ]; simpl; [| now split ..].
    destruct (respond_frame error s1) as [-> ->]. now split. }
  destruct Hframe as [Hsub Hcons].
  split; [intros l o Ho; eapply lookup_weaken; eauto |]. split.
  - intros Hu Hn. destruct (classify_frame err s) as (_ & _ & Hlog).
    destruct (Hlog Hu Hn) as (hlog & Hsub' & Hc).
    exists hlog. rewrite Hcons. split; [exact Hc |].
    intros l o Ho. eapply lookup_weaken; eauto.
  - intros s1 error Hclass.
    destruct (classify_result_fresh _ _ _ _ Hclass) as (l & -> & Hl).
    exists l. split; [reflexivity |]. split; [exact Hl |].
    intros Hin ->. simpl in Hin. rewrite Hl in Hin. now destruct Hin.
Qed.

(** ** catchAsync *)

Section CatchAsyncCorrect.

Context {effect Req Res : Type}.
Variable not_a_function : value.

Import Async.

Lemma next_calls_effects (xs : list effect) : next_calls (map EvEffect xs) = [].
Proof. induction xs as [| x xs IH]; [reflexivity | exact IH]. Qed.

Lemma next_calls_unhandled (es : list value) :
  next_calls (map (@EvUnhandledRejection effect) es) = [].
Proof. induction es as [| x xs IH]; [reflexivity | exact IH]. Qed.

Lemma unhandled_effects (xs : list effect) : unhandled_rejections (map EvEffect xs) = [].
Proof. induction xs as [| x xs IH]; [reflexivity | exact IH]. Qed.

Lemma unhandled_unhandled (es : list value) :
  unhandled_rejections (map (@EvUnhandledRejection effect) es) = es.
Proof. induction es as [| x xs IH]; [reflexivity | simpl; now rewrite IH]. Qed.

Lemma catch_rejected (p : promise) (downstream : value -> list effect * outcome unit) e :
  p_settle p = Rejected e ->
  drop_promise (promise_catch p (fun err => express_next downstream err)) =
  p_events p ++ EvNext e :: map EvEffect (fst (downstream e))
    ++ map EvUnhandledRejection (thrown (snd (downstream e))).
Proof.
  intros Hp. unfold drop_promise, promise_catch, express_next. rewrite Hp.
  destruct (downstream e) as [xs [[] | e']]; simpl;
    rewrite <- ?app_assoc; simpl; now rewrite ?app_nil_r.
Qed.

(** A handler that throws before it returns: the wrapper lets the exception
    through, for the routing layer to catch. *)
Remark catchAsync_synchronous_throw
    (fn : @handler effect Req Res) (req : Req) (res : Res) (next : @callback effect) t e :
  fn req res next = (t, Threw _ e) ->
  catchAsync not_a_function fn req res next = (t, Threw _ e).
Proof. intros Hfn. unfold catchAsync. now rewrite Hfn. Qed.

(** A handler that returns no promise: [.catch] is not callable. *)
Remark catchAsync_without_promise
    (fn : @handler effect Req Res) (req : Req) (res : Res) (next : @callback effect) t v :
  fn req res next = (t, Returned _ (RetValue v)) ->
  catchAsync not_a_function fn req res next = (t, Threw _ not_a_function).
Proof. intros Hfn. unfold catchAsync. now rewrite Hfn. Qed.

(** C1: let the handler [fn], called with the request, the response sink and
    the callback [next] of the routing layer, return a promise.  If the
    promise rejects with [e], the wrapped handler calls [next] with [e] once
    more than [fn] itself did, after everything [fn] did, and returns
    [undefined]; the rejection of the promise of [fn] is handled, so the only
    rejection the wrapper can leave unhandled is one that [next] itself throws,
    whereas the unwrapped handler leaves [e] unhandled.  If the promise is
    fulfilled, or stays pending, the wrapped handler does exactly what [fn]
    does, and the routing layer cannot tell them apart. *)
Theorem catchAsync_forwards_rejection
    (fn : handler) (req : Req) (res : Res)
    (downstream : value -> list effect * outcome unit)
    (t : list event) (p : promise) :
  fn req res (express_next downstream) = (t, Returned _ (RetPromise p)) ->
  match p_settle p with
  | Rejected e =>
      catchAsync not_a_function fn req res (express_next downstream) =
        (t ++ p_events p ++ EvNext e :: map EvEffect (fst (downstream e))
           ++ map EvUnhandledRejection (thrown (snd (downstream e))),
         Returned _ (RetValue VUndefined))
      /\ next_calls (fst (catchAsync not_a_function fn req res (express_next downstream))) =
         next_calls (t ++ p_events p) ++ [e]
      /\ unhandled_rejections
           (fst (catchAsync not_a_function fn req res (express_next downstream))) =
         unhandled_rejections (t ++ p_events p) ++ thrown (snd (downstream e))
      /\ unhandled_rejections (fst (layer_call fn req res (express_next downstream))) =
         unhandled_rejections (t ++ p_events p) ++ [e]
  | _ =>
      catchAsync not_a_function fn req res (express_next downstream) =
        (t ++ p_events p, Returned _ (RetValue VUndefined))
      /\ layer_call (catchAsync not_a_function fn) req res (express_next downstream) =
         layer_call fn req res (express_next downstream)
  end.
Proof.
  intros Hfn.
  destruct (p_settle p) as [v | e |] eqn:Hp.
  - unfold layer_call, catchAsync. rewrite Hfn.
    unfold drop_promise, promise_catch. rewrite Hp. simpl.
    now rewrite !app_nil_r.
  - assert (Hrun : catchAsync not_a_function fn req res (express_next downstream) =
                   (t ++ p_events p ++ EvNext e :: map EvEffect (fst (downstream e))
                      ++ map EvUnhandledRejection (thrown (snd (downstream e))),
                    Returned _ (RetValue VUndefined))).
    { unfold catchAsync. rewrite Hfn. now rewrite (catch_rejected p downstream e Hp). }
    split; [exact Hrun |]. rewrite Hrun. simpl. split; [| split].
    + unfold next_calls. rewrite !omap_app. simpl. rewrite omap_app.
      fold (next_calls (map EvEffect (fst (downstream e)))).
      fold (next_calls (map (@EvUnhandledRejection effect) (thrown (snd (downstream e))))).
      rewrite next_calls_effects, next_calls_unhandled. now rewrite <- app_assoc.
    + unfold unhandled_rejections. rewrite !omap_app. simpl. rewrite omap_app.
      fold (unhandled_rejections (map EvEffect (fst (downstream e)))).
      fold (unhandled_rejections
              (map (@EvUnhandledRejection effect) (thrown (snd (downstream e))))).
      rewrite unhandled_effects, unhandled_unhandled. now rewrite <- app_assoc.
    + unfold layer_call. rewrite Hfn. simpl. unfold drop_promise. rewrite Hp.
      unfold unhandled_rejections. rewrite !omap_app. simpl. now rewrite <- app_assoc.
  - unfold layer_call, catchAsync. rewrite Hfn.
    unfold drop_promise, promise_catch. rewrite Hp. simpl.
    now rewrite !app_nil_r.
Qed.

End CatchAsyncCorrect.

Lemma catchAsync_forwards_rejection_witness :
  let wrapped := Async.catchAsync catch_is_not_a_function (async_good the_error) in
  let req := mkRequest "GET" "/async-good" in
  let next := Async.express_next (answering "500 sent") in
  wrapped req tt next =
    ([Async.EvNext the_error; Async.EvEffect "500 sent"],
     Async.Returned _ (Async.RetValue VUndefined))
  /\ Async.next_calls (fst (wrapped req tt next)) = [the_error]
  /\ Async.unhandled_rejections (fst (wrapped req tt next)) = []
  /\ Async.unhandled_rejections
       (fst (Async.layer_call (async_good the_error) req tt next)) = [the_error].
Proof.
  exact (catchAsync_forwards_rejection catch_is_not_a_function (async_good the_error)
           (mkRequest "GET" "/async-good") tt (answering "500 sent") []
           (Async.mkPromise [] (Async.Rejected the_error)) eq_refl).
Defined.

(** ** Route 4 end to end *)

Example async_good_is_answered :
  Async.catchAsync catch_is_not_a_function (async_good the_error)
    (mkRequest "GET" "/async-good") tt
    (Async.express_next (through_middleware (a_state heap_async_failure))) =
  ([Async.EvNext the_error;
    Async.EvEffect
      (mkResponse (VNum 500)
         [("statusCode", VNum 500); ("message", VStr "Async failure insider catchAsync")])],
   Async.Returned _ (Async.RetValue VUndefined)).
Proof. vm_compute. reflexivity. Qed.

(** * Further properties of the code *)

(** ** The middleware on errors of other kinds *)

Lemma errorMiddleware_frame err s :
  st_heap s ⊆ st_heap (fst (errorMiddleware err s))
  /\ st_console (fst (errorMiddleware err s)) = st_console (fst (classify err s)).
Proof.
  unfold errorMiddleware.
  destruct (classify_frame err s) as (Hsub & _).
  destruct (classify err s) as [s1 [error | |]] eqn:Hclass; simpl in Hsub;
    [ rewrite (bind_run _ _ _ _ _ Hclass)
    | rewrite (bind_throw _ _ _ _ _ Hclass)
    | rewrite (bind_unmodelled _ _ _ _ Hclass) ]; simpl; [| now split ..].
  destruct (respond_frame error s1) as [-> ->]. now split.
Qed.

(** X1: an [AppError] that a handler built itself, such as the
    'User Not Found' of line 97, passes through the middleware with its
    status and its message (500 for the status 0 and the fallback for an
    empty message, which [||] treats as missing).  It is answered when that
    status is one of 100..999; for any other status the transport throws a
    RangeError out of the response step and nothing is sent. *)
Theorem AppError_passes_through s l message statusCode :
  st_heap s !! l = Some (AppError_object message statusCode) ->
  -2147483648 <= statusCode <= 2147483647 ->
  let status := if statusCode =? 0 then 500 else statusCode in
  if (100 <=? status) && (status <=? 999)
  then responds_with s (VRef l) status
         (if String.eqb message "" then "Something went wrong" else message)
  else exists s', errorMiddleware (VRef l) s = (s', Throw RangeError)
                  /\ st_sent s' = st_sent s.
Proof.
  intros Hl Hint status.
  destruct (AppError_run s l message statusCode Hl) as (s' & Hrun & Hsent).
  assert (Hstatus : js_or (VNum statusCode) (VNum 500) = VNum status).
  { unfold js_or, status. simpl. now destruct (statusCode =? 0). }
  assert (Hmessage : js_or (VStr message) (VStr "Something went wrong") =
                     VStr (if String.eqb message "" then "Something went wrong"
                           else message)).
  { unfold js_or. simpl. now destruct (String.eqb message ""). }
  cbn [r_status] in Hrun, Hsent. rewrite Hstatus in Hrun, Hsent. rewrite Hmessage in Hsent.
  unfold status_verdict in Hrun, Hsent.
  destruct ((100 <=? status) && (status <=? 999)) eqn:E.
  - exists s'. split; assumption.
  - assert (Hr : (-2147483648 <=? status) && (status <=? 2147483647) = true).
    { unfold status. apply andb_true_iff. destruct (statusCode =? 0); lia. }
    rewrite Hr in Hrun, Hsent. exists s'. split; [exact Hrun |].
    now rewrite Hsent, app_nil_r.
Qed.

Lemma AppError_passes_through_witness :
  responds_with (a_state heap_user_not_found) the_error 404 "User Not Found".
Proof.
  apply (AppError_passes_through (a_state heap_user_not_found) 1%positive
           "User Not Found" 404); [reflexivity | lia].
Defined.

(** An [AppError] built with the status 1001 is not answered. *)
Example bad_status_is_refused :
  errorMiddleware the_error (a_state heap_bad_status) =
    (fst (errorMiddleware the_error (a_state heap_bad_status)), Throw RangeError)
  /\ st_sent (fst (errorMiddleware the_error (a_state heap_bad_status))) = [].
Proof. split; vm_compute; reflexivity. Qed.

Lemma pretty_N_go_leading x s (c : Ascii.ascii) :
  (forall c', leading s = Some c' -> c' <> c) ->
  (forall n, pretty_N_char n <> c) ->
  forall c', leading (pretty_N_go x s) = Some c' -> c' <> c.
Proof.
  intros Hs Hc. revert s Hs.
  induction (N.lt_wf_0 x) as [x _ IH]; intros s Hs.
  destruct (decide (x = 0%N)) as [-> | Hx].
  - now rewrite pretty_N_go_0.
  - rewrite pretty_N_go_step by lia. apply IH.
    + apply N.div_lt; lia.
    + intros c' Hc'. simpl in Hc'. injection Hc' as <-. apply Hc.
Qed.

Lemma pretty_nat_leading (i : nat) (c : Ascii.ascii) :
  (forall n, pretty_N_char n <> c) ->
  forall c', leading (pretty i) = Some c' -> c' <> c.
Proof.
  intros Hc c'. unfold pretty, pretty_nat, pretty, pretty_N.
  destruct (decide (N.of_nat i = 0%N)) as [_ | _].
  - simpl. intros H. injection H as <-. apply (Hc 0%N).
  - apply pretty_N_go_leading; [discriminate | exact Hc].
Qed.

(** The index keys of a string are numerals: none of them is a key that
    starts with another character. *)
Lemma index_is_not (i : nat) (k : string) (c : Ascii.ascii) :
  leading k = Some c -> (forall n, pretty_N_char n <> c) ->
  String.eqb (pretty i) k = false.
Proof.
  intros Hk Hc. apply String.eqb_neq. intros Heq.
  apply (pretty_nat_leading i c Hc c); [| reflexivity].
  now rewrite Heq.
Qed.

Lemma digit_is_not_s n : pretty_N_char n <> letter_s.
Proof. unfold pretty_N_char. repeat case_match; discriminate. Qed.

Lemma digit_is_not_underscore n : pretty_N_char n <> underscore.
Proof. unfold pretty_N_char. repeat case_match; discriminate. Qed.

Lemma copied_value_string_chars i t d :
  copied_value "statusCode" (string_chars i t) d = d.
Proof.
  revert i d. induction t as [| c t IH]; intros i d; simpl; [reflexivity |].
  now rewrite (index_is_not i "statusCode" letter_s eq_refl digit_is_not_s), IH.
Qed.

Lemma copied_chain_string_chars h i t chain :
  copied_chain h (string_chars i t) chain = chain.
Proof.
  revert i. induction t as [| c t IH]; intros i; simpl; [reflexivity |].
  now rewrite (index_is_not i "__proto__" underscore eq_refl digit_is_not_underscore), IH.
Qed.

(** X2: a primitive (a string, a number or a boolean) that a handler throws
    or passes to [next], and that the routing layer takes for an error (it
    is truthy and is not 'route' or 'router'), is answered with status 500
    and "Something went wrong"; the text of a thrown string does not reach
    the client. *)
Theorem primitive_error_response s err :
  is_primitive err = true ->
  forwarded_as_error err = true ->
  responds_with s err 500 "Something went wrong".
Proof.
  intros Hprim _.
  assert (Hname : forall tag, has_name (st_heap s) err tag = false)
    by (intros tag; destruct err; try discriminate Hprim; reflexivity).
  assert (Hcode : has_code (st_heap s) err 11000 = false)
    by (destruct err; try discriminate Hprim; reflexivity).
  apply errorMiddleware_answers; [| | | | | | reflexivity].
  - destruct err; try discriminate Hprim; exact I.
  - intros ->. discriminate Hprim.
  - intros ->. discriminate Hprim.
  - rewrite Hname. discriminate.
  - rewrite Hcode. discriminate.
  - unfold classified_object. rewrite !Hname, Hcode. unfold response_of.
    rewrite !lookup_shallow_copy by reflexivity. simpl.
    destruct err; try discriminate Hprim;
      unfold message_of, copied_property, assignable_props; simpl;
      rewrite ?copied_chain_string_chars, ?copied_value_string_chars; reflexivity.
Qed.

Lemma primitive_error_response_witness :
  responds_with (a_state ∅) (VStr "disk full") 500 "Something went wrong".
Proof. apply primitive_error_response; reflexivity. Defined.

(** X3: the field-validation rule reads [err.errors] unguarded.  On an error
    whose name tag is 'ValidationError' and whose [errors] is undefined or
    null, the middleware logs the error, then throws a TypeError out of
    line 127 and sends no response. *)
Theorem ValidationError_without_errors s err errors :
  has_name (st_heap s) err "ValidationError" = true ->
  get (st_heap s) err "errors" = Normal errors ->
  errors = VUndefined \/ errors = VNull ->
  exists s' hlog,
    errorMiddleware err s = (s', Throw TypeError)
    /\ st_sent s' = st_sent s
    /\ st_console s' = st_console s ++ [mkLog [VStr "ERROR 💥"; err] hlog].
Proof.
  intros Hname Herrors Hnone.
  destruct (has_name_true_inv _ _ _ Hname) as (Hin & Hu & Hn & Hget).
  destruct (copy_and_log_run err s Hin Hu Hn) as (l1 & Hl1 & Hrun1).
  set (h1 := <[l1 := shallow_copy (st_heap s) err]> (st_heap s)) in Hrun1.
  set (s1 := mkState h1 _ _ _) in Hrun1.
  assert (Hsub : st_heap s ⊆ st_heap s1) by (simpl; now apply insert_subseteq).
  assert (Hrule1 : rule_CastError err (VRef l1) s1 = (s1, Normal (VRef l1))).
  { rewrite rule_CastError_run by assumption.
    rewrite (has_name_mono (st_heap s)) by assumption.
    now rewrite (has_name_exclusive _ _ _ "CastError" Hname). }
  assert (Hrule2 : rule_ValidationError err (VRef l1) s1 = (s1, Throw TypeError)).
  { unfold rule_ValidationError.
    rewrite (bind_run _ _ s1 s1 (VStr "ValidationError"))
      by (unfold Get; now rewrite (get_mono (st_heap s)), Hget).
    simpl.
    rewrite (bind_run _ _ s1 s1 errors)
      by (unfold Get; now rewrite (get_mono (st_heap s)), Herrors).
    apply bind_throw. unfold Object_values. now destruct Hnone as [-> | ->]. }
  exists s1, h1. split; [| split; reflexivity].
  unfold errorMiddleware, classify.
  apply bind_throw. rewrite (bind_run _ _ _ _ _ Hrun1), (bind_run _ _ _ _ _ Hrule1).
  now apply bind_throw.
Qed.

Lemma ValidationError_without_errors_witness :
  exists s' hlog,
    errorMiddleware the_error (a_state heap_ValidationError_bare) = (s', Throw TypeError)
    /\ st_sent s' = []
    /\ st_console s' = [mkLog [VStr "ERROR 💥"; the_error] hlog].
Proof.
  apply (ValidationError_without_errors (a_state heap_ValidationError_bare) the_error
           VUndefined); [reflexivity | reflexivity | now left].
Defined.

(** X4: one run of the middleware sends one response or none, never two:
    exactly one when the run completes, and none when it ends in an
    exception, be it thrown by the classification (X3) or by the transport
    on the status (X1). *)
Theorem one_response_or_none s err :
  exists rs,
    st_sent (fst (errorMiddleware err s)) = st_sent s ++ rs
    /\ match snd (errorMiddleware err s) with
       | Normal _ => exists r, rs = [r]
       | _ => rs = []
       end.
Proof.
  destruct (classify_frame err s) as (_ & Hsent & _).
  unfold errorMiddleware.
  destruct (classify err s) as [s1 [error | k |]] eqn:Hclass; simpl in Hsent;
    [ rewrite (bind_run _ _ _ _ _ Hclass)
    | rewrite (bind_throw _ _ _ _ _ Hclass); exists []; now rewrite app_nil_r
    | rewrite (bind_unmodelled _ _ _ _ Hclass); exists []; now rewrite app_nil_r ].
  destruct (classify_result_fresh _ _ _ _ Hclass) as (l & -> & _).
  unfold respond, bind, Get, res_status, res_json. simpl.
  destruct (status_verdict _); simpl; rewrite Hsent.
  - eexists. split; [reflexivity | eauto].
  - exists []. now rewrite app_nil_r.
  - exists []. now rewrite app_nil_r.
Qed.

Lemma assign_props_mono (h h' : heap) kvs o :
  h ⊆ h' ->
  (forall p, ("__proto__", p) ∈ kvs -> in_heap h p) ->
  assign_props h' kvs o = assign_props h kvs o.
Proof.
  intros Hsub. revert o. induction kvs as [| [k v] kvs IH]; intros o Hp; [reflexivity |].
  change (assign_props h' ((k, v) :: kvs) o)
    with (assign_props h' kvs (assign_one h' o (k, v))).
  change (assign_props h ((k, v) :: kvs) o)
    with (assign_props h kvs (assign_one h o (k, v))).
  rewrite IH by (intros p Hin; apply Hp; now right).
  f_equal. unfold assign_one. simpl.
  destruct (String.eqb k "__proto__") eqn:E; [| reflexivity].
  apply String.eqb_eq in E. subst k.
  destruct v as [| | b | n | t | l]; try reflexivity.
  rewrite (obj_at_mono h h'); [reflexivity | exact Hsub |].
  apply (Hp (VRef l)). now left.
Qed.

(** The classified object is the same in a heap that has grown. *)
Lemma classified_object_mono (h h' : heap) err :
  h ⊆ h' -> in_heap h err ->
  (has_name h err "ValidationError" = true -> is_Some (field_messages h err)) ->
  (forall kv, get h err "keyValue" = Normal kv -> in_heap h kv) ->
  (forall p, ("__proto__", p) ∈ assignable_props h err -> in_heap h p) ->
  classified_object h' err = classified_object h err.
Proof.
  intros Hsub Hin Hshape Hpayload Hproto. unfold classified_object.
  rewrite !(has_name_mono h h'), (has_code_mono h h') by assumption.
  rewrite (conflict_keys_mono h h') by assumption.
  unfold shallow_copy, message_of, assignable_props in *.
  rewrite (get_mono h h'), (own_enumerable_mono h h') by assumption.
  rewrite (assign_props_mono h h') by assumption.
  destruct (has_name h err "ValidationError") eqn:Hv; [| reflexivity].
  destruct (Hshape eq_refl) as [msgs Hmsgs].
  now rewrite Hmsgs, (field_messages_mono h h' err msgs).
Qed.

(** X5: answering an error leaves no trace that a later run could see.  The
    middleware run twice on the same error ends twice in the same way and
    sends twice the same: the same response when the transport accepts the
    status, and nothing when it does not.  (The values that the error refers
    to are values of the heap.) *)
Theorem same_error_same_response s err :
  in_heap (st_heap s) err -> err <> VUndefined -> err <> VNull ->
  (has_name (st_heap s) err "ValidationError" = true ->
   is_Some (field_messages (st_heap s) err)) ->
  (forall kv, get (st_heap s) err "keyValue" = Normal kv -> in_heap (st_heap s) kv) ->
  (forall p, ("__proto__", p) ∈ assignable_props (st_heap s) err -> in_heap (st_heap s) p) ->
  exists s1 s2 c rs,
    errorMiddleware err s = (s1, c)
    /\ errorMiddleware err s1 = (s2, c)
    /\ st_sent s2 = st_sent s ++ rs ++ rs
    /\ match c with
       | Normal _ => exists r, rs = [r]
       | _ => rs = []
       end.
Proof.
  intros Hin Hu Hn Hshape Hpayload Hproto.
  destruct (errorMiddleware_run err s Hin Hu Hn Hshape) as (s1 & Hrun1 & Hsent1);
    [intros _ _; exact Hpayload |].
  destruct (errorMiddleware_frame err s) as (Hsub & _). rewrite Hrun1 in Hsub.
  simpl in Hsub.
  assert (Hin1 : in_heap (st_heap s1) err).
  { destruct err; simpl in *; try exact I. destruct Hin as [o Ho].
    exists o. eapply lookup_weaken; eauto. }
  destruct (errorMiddleware_run err s1 Hin1 Hu Hn) as (s2 & Hrun2 & Hsent2).
  - rewrite (has_name_mono (st_heap s)) by assumption.
    intros Hv. destruct (Hshape Hv) as [msgs Hmsgs].
    exists msgs. now apply (field_messages_mono (st_heap s)).
  - intros _ _ kv Hkv. rewrite (get_mono (st_heap s)) in Hkv by assumption.
    specialize (Hpayload kv Hkv). destruct kv; simpl in *; try exact I.
    destruct Hpayload as [o Ho]. exists o. eapply lookup_weaken; eauto.
  - rewrite (classified_object_mono (st_heap s)) in Hrun2, Hsent2 by assumption.
    set (r := response_of (classified_object (st_heap s) err)) in *.
    destruct (status_verdict (r_status r)).
    + exists s1, s2, (Normal tt), [r].
      split; [exact Hrun1 |]. split; [exact Hrun2 |].
      split; [now rewrite Hsent2, Hsent1, <- app_assoc | eauto].
    + exists s1, s2, (Throw RangeError), [].
      split; [exact Hrun1 |]. split; [exact Hrun2 |].
      split; [now rewrite Hsent2, Hsent1, <- app_assoc | reflexivity].
    + exists s1, s2, Unmodelled, [].
      split; [exact Hrun1 |]. split; [exact Hrun2 |].
      split; [now rewrite Hsent2, Hsent1, <- app_assoc | reflexivity].
Qed.

Lemma same_error_same_response_witness :
  exists s1 s2 c rs,
    errorMiddleware the_error (a_state heap_duplicate) = (s1, c)
    /\ errorMiddleware the_error s1 = (s2, c)
    /\ st_sent s2 = [] ++ rs ++ rs
    /\ match c with
       | Normal _ => exists r, rs = [r]
       | _ => rs = []
       end.
Proof.
  apply (same_error_same_response (a_state heap_duplicate) the_error).
  - exists (Obj [("message", mkProperty (VStr "E11000 duplicate key error") false);
                 ("code", mkProperty (VNum 11000) true);
                 ("keyValue", mkProperty (VRef 2) true)]
                [[("name", mkProperty (VStr "MongoServerError") false)]]).
    reflexivity.
  - discriminate.
  - discriminate.
  - intros H. discriminate H.
  - intros kv H. injection H as <-.
    exists (Obj [("email", mkProperty (VStr "x@y.com") true)] []). reflexivity.
  - intros p H. vm_compute in H.
    repeat (apply elem_of_cons in H as [H | H]; [discriminate H |]).
    now apply elem_of_nil in H.
Defined.

(** The duplicate-key error of the samples, answered twice. *)
Example duplicate_answered_twice :
  st_sent (fst (errorMiddleware the_error
                  (fst (errorMiddleware the_error (a_state heap_duplicate))))) =
  [mkResponse (VNum 400)
     [("statusCode", VNum 400); ("message", VStr "Duplicate field value: email")];
   mkResponse (VNum 400)
     [("statusCode", VNum 400); ("message", VStr "Duplicate field value: email")]].
Proof. vm_compute. reflexivity. Qed.



(** The way round: the status of the object that an own enumerable
    [__proto__] holds reaches the client. *)
Example proto_key_carries_status :
  lookup_property (obj_at heap_proto_key 1%positive) "statusCode" = VUndefined
  /\ st_sent (fst (errorMiddleware the_error (a_state heap_proto_key))) =
     [mkResponse (VNum 418)
        [("statusCode", VNum 418); ("message", VStr "Something went wrong")]].
Proof. split; vm_compute; reflexivity. Qed.

(** ** The wrapper on handlers it was not made for *)

Section CatchAsyncMisuse.

Context {effect Req Res : Type}.
Variable not_a_function : value.

Import Async.

(** X8: wrapping a handler that returns no promise turns its success into a
    failure.  The routing layer sees the effects of the handler and then
    forwards the TypeError of [.catch] to [next], once; unwrapped, the same
    handler just returns. *)
Theorem catchAsync_needs_a_promise
    (fn : @handler effect Req Res) (req : Req) (res : Res)
    (downstream : value -> list effect * outcome unit)
    (t : list event) (v : value) :
  fn req res (express_next downstream) = (t, Returned _ (RetValue v)) ->
  layer_call fn req res (express_next downstream) = (t, Returned _ tt)
  /\ layer_call (catchAsync not_a_function fn) req res (express_next downstream) =
     (t ++ EvNext not_a_function :: map EvEffect (fst (downstream not_a_function)),
      snd (downstream not_a_function))
  /\ next_calls
       (fst (layer_call (catchAsync not_a_function fn) req res (express_next downstream))) =
     next_calls t ++ [not_a_function].
Proof.
  intros Hfn.
  assert (Hwrapped : layer_call (catchAsync not_a_function fn) req res
                       (express_next downstream) =
                     (t ++ EvNext not_a_function
                          :: map EvEffect (fst (downstream not_a_function)),
                      snd (downstream not_a_function))).
  { unfold layer_call, catchAsync. rewrite Hfn. reflexivity. }
  split; [unfold layer_call; now rewrite Hfn |]. split; [exact Hwrapped |].
  rewrite Hwrapped. simpl. unfold next_calls at 1. rewrite omap_app.
  change (omap _ (EvNext not_a_function :: map EvEffect (fst (downstream not_a_function))))
    with (not_a_function :: next_calls (map EvEffect (fst (downstream not_a_function)))).
  now rewrite next_calls_effects.
Qed.

End CatchAsyncMisuse.

Lemma catchAsync_needs_a_promise_witness :
  let next := Async.express_next (answering "500 sent") in
  let req := mkRequest "GET" "/" in
  Async.layer_call (plain_handler "Hello sent") req tt next =
    ([Async.EvEffect "Hello sent"], Async.Returned _ tt)
  /\ Async.layer_call (Async.catchAsync catch_is_not_a_function (plain_handler "Hello sent"))
       req tt next =
     ([Async.EvEffect "Hello sent"; Async.EvNext catch_is_not_a_function;
       Async.EvEffect "500 sent"], Async.Returned _ tt)
  /\ Async.next_calls
       (fst (Async.layer_call
               (Async.catchAsync catch_is_not_a_function (plain_handler "Hello sent"))
               req tt next)) = [catch_is_not_a_function].
Proof.
  exact (catchAsync_needs_a_promise catch_is_not_a_function (plain_handler "Hello sent")
           (mkRequest "GET" "/") tt (answering "500 sent") [Async.EvEffect "Hello sent"]
           VUndefined eq_refl).
Defined.

(** ** The routes *)

Lemma run_jobs_one (j : Lifecycle.job) s : Lifecycle.run_jobs [j] s = j s.
Proof.
  simpl. unfold bind, ret. destruct (j s) as [s1 [rs | k |]]; try reflexivity.
  now rewrite app_nil_r.
Qed.

#[local] Arguments Lifecycle.run_jobs : simpl never.

(** The reaction of the wrapper on a promise that rejects with the value
    [e]: [next(e)], whose exception, if any, nothing handles. *)
Lemma caught_rejected (body : M Lifecycle.fate) next s s1 e :
  body s = (s1, Normal (Lifecycle.Rejects (Lifecycle.Value e))) ->
  Lifecycle.caught (Lifecycle.async_body body) next s =
  match next e s1 with
  | (s2, Normal _) => (s2, Normal [])
  | (s2, Throw k) => (s2, Normal [Lifecycle.Thrown k])
  | (s2, Unmodelled) => (s2, Unmodelled)
  end.
Proof.
  intros Hbody. unfold Lifecycle.caught, Lifecycle.async_body, bind. now rewrite Hbody.
Qed.

Lemma caught_fulfilled (body : M Lifecycle.fate) next s s1 :
  body s = (s1, Normal Lifecycle.Fulfils) ->
  Lifecycle.caught (Lifecycle.async_body body) next s = (s1, Normal []).
Proof.
  intros Hbody. unfold Lifecycle.caught, Lifecycle.async_body, bind. now rewrite Hbody.
Qed.

Lemma dropped_rejected (body : M Lifecycle.fate) s s1 r :
  body s = (s1, Normal (Lifecycle.Rejects r)) ->
  Lifecycle.dropped (Lifecycle.async_body body) s = (s1, Normal [r]).
Proof.
  intros Hbody. unfold Lifecycle.dropped, Lifecycle.async_body, bind. now rewrite Hbody.
Qed.

(** X7: the wrapper is not idempotent.  Let the handler return a promise.
    Wrapped once, the request is the reaction of the wrapper to that promise.
    Wrapped twice, the inner wrapper returns [undefined], on which the outer
    one throws the TypeError of [.catch]: the routing layer forwards that
    TypeError to [next] at once, on every request and before the promise has
    settled, and what the handler wrapped once does comes after it. *)
Theorem catchAsync_twice (fn : Lifecycle.handler) req next s s1 p :
  fn req next s = (s1, Normal (Lifecycle.mkCall (Lifecycle.ReturnsPromise p) [])) ->
  Lifecycle.handle_request (Lifecycle.catchAsync fn) req next s =
    Lifecycle.caught p next s1
  /\ Lifecycle.handle_request (Lifecycle.catchAsync (Lifecycle.catchAsync fn)) req next s =
     (x <- alloc Lifecycle.TypeError_object ;; next x ;;; Lifecycle.caught p next) s1.
Proof.
  intros Hfn.
  assert (Hone : Lifecycle.catchAsync fn req next s =
                 (s1, Normal (Lifecycle.mkCall Lifecycle.Returns [Lifecycle.caught p next]))).
  { unfold Lifecycle.catchAsync. now rewrite (bind_run _ _ _ _ _ Hfn). }
  split.
  - unfold Lifecycle.handle_request, Lifecycle.in_try, bind. rewrite Hone. simpl.
    apply run_jobs_one.
  - unfold Lifecycle.handle_request, Lifecycle.in_try.
    unfold Lifecycle.catchAsync at 1. unfold bind at 1 2. rewrite Hone. simpl.
    unfold bind. simpl.
    destruct (next _ _) as [s2 [u | k |]]; try reflexivity.
    apply run_jobs_one.
Qed.

Lemma catchAsync_twice_witness :
  let fn := Lifecycle.reject_new_Error "boom" in
  let next := fun e => console_error [e] in
  let logged s := map log_args (st_console (fst s)) in
  logged (Lifecycle.handle_request (Lifecycle.catchAsync fn) a_request next (a_state ∅)) =
    [[VRef 1]]
  /\ logged (Lifecycle.handle_request (Lifecycle.catchAsync (Lifecycle.catchAsync fn))
              a_request next (a_state ∅)) = [[VRef 2]; [VRef 1]].
Proof.
  intros fn next logged.
  assert (Hfn : fn a_request next (a_state ∅) =
                (fst (fn a_request next (a_state ∅)),
                 Normal (Lifecycle.mkCall
                           (Lifecycle.ReturnsPromise
                              (Lifecycle.async_body
                                 (Lifecycle.await (ret (Async.Rejected (VRef 1)))
                                    (fun _ => ret Lifecycle.Fulfils))))
                           [])))
    by (vm_compute; reflexivity).
  destruct (catchAsync_twice fn a_request next (a_state ∅) _ _ Hfn) as [H1 H2].
  rewrite H1, H2. split; vm_compute; reflexivity.
Defined.

(** X9: the three ways of raising a plain error that the demo shows come to
    the same.  For every message, request and state, and for a callback
    [next] that returns when it is called with the error, as that of the
    routing layer does: throwing the error from a handler, passing it to
    [next] and rejecting with it under the wrapper all end in the state that
    [next] leaves, with no rejection unhandled; the rejection without the
    wrapper never reaches [next] and is left unhandled. *)
Theorem three_failures_one_path message req next s s1 e s2 :
  Lifecycle.new_Error message s = (s1, Normal e) ->
  next e s1 = (s2, Normal tt) ->
  Lifecycle.handle_request (Lifecycle.throw_new_Error message) req next s = (s2, Normal [])
  /\ Lifecycle.handle_request (Lifecycle.next_new_Error message) req next s = (s2, Normal [])
  /\ Lifecycle.handle_request
       (Lifecycle.catchAsync (Lifecycle.reject_new_Error message)) req next s =
     (s2, Normal [])
  /\ Lifecycle.handle_request (Lifecycle.reject_new_Error message) req next s =
     (s1, Normal [Lifecycle.Value e]).
Proof.
  intros Hnew Hnext.
  assert (Hbody : Lifecycle.await (ret (Async.Rejected e)) (fun _ => ret Lifecycle.Fulfils) s1
                  = (s1, Normal (Lifecycle.Rejects (Lifecycle.Value e)))) by reflexivity.
  split; [| split; [| split]].
  - unfold Lifecycle.handle_request, Lifecycle.in_try, Lifecycle.throw_new_Error.
    unfold bind. rewrite Hnew. simpl. now rewrite Hnext.
  - unfold Lifecycle.handle_request, Lifecycle.in_try, Lifecycle.next_new_Error.
    unfold bind. rewrite Hnew. simpl. now rewrite Hnext.
  - unfold Lifecycle.handle_request, Lifecycle.in_try, Lifecycle.catchAsync,
      Lifecycle.reject_new_Error.
    unfold bind at 1 2 3. rewrite Hnew. simpl. rewrite run_jobs_one.
    now rewrite (caught_rejected _ _ _ _ _ Hbody), Hnext.
  - unfold Lifecycle.handle_request, Lifecycle.in_try, Lifecycle.reject_new_Error.
    unfold bind at 1 2. rewrite Hnew. simpl. rewrite run_jobs_one.
    now rewrite (dropped_rejected _ _ _ _ Hbody).
Qed.

Lemma three_failures_one_path_witness :
  let s1 := fst (Lifecycle.new_Error "down" (a_state ∅)) in
  let s2 := fst (forward_failure the_error s1) in
  Lifecycle.handle_request (Lifecycle.throw_new_Error "down") a_request forward_failure
    (a_state ∅) = (s2, Normal [])
  /\ Lifecycle.handle_request (Lifecycle.next_new_Error "down") a_request forward_failure
       (a_state ∅) = (s2, Normal [])
  /\ Lifecycle.handle_request
       (Lifecycle.catchAsync (Lifecycle.reject_new_Error "down")) a_request forward_failure
       (a_state ∅) = (s2, Normal [])
  /\ Lifecycle.handle_request (Lifecycle.reject_new_Error "down") a_request forward_failure
       (a_state ∅) = (s1, Normal [Lifecycle.Value the_error]).
Proof.
  intros s1 s2.
  apply (three_failures_one_path "down" a_request forward_failure (a_state ∅) s1
           the_error s2); vm_compute; reflexivity.
Defined.

(** The three error routes of the demo end to end. *)
Example error_routes_are_answered :
  let sent h := st_sent (fst (Lifecycle.handle_request h a_request forward_failure
                                (a_state ∅))) in
  let answer message :=
    [mkResponse (VNum 500) [("statusCode", VNum 500); ("message", VStr message)]] in
  sent Lifecycle.route_error_throw = answer "Synchronous error thrown!"
  /\ sent Lifecycle.route_next_error = answer "Error passed with next()"
  /\ sent Lifecycle.route_async_good = answer "Async failure insider catchAsync".
Proof. repeat split; vm_compute; reflexivity. Qed.

Section UserRoutes.

Variable User_create : value -> M Async.settlement.
Variable User_findById : string -> M Async.settlement.

(** X10: GET /users/:id for an id that the data-access layer does not find
    (the query resolves to a falsy value): the handler forwards an
    [AppError], the client receives the single response 404 'User Not Found',
    the success body is not written and no rejection is left unhandled. *)
Theorem get_user_not_found req s s1 user :
  User_findById (Lifecycle.in_id req) s = (s1, Normal (Async.Fulfilled user)) ->
  truthy user = false ->
  exists s',
    Lifecycle.handle_request (Lifecycle.route_get_user User_findById) req forward_failure s =
    (s', Normal [])
    /\ st_sent s' = st_sent s1 ++
         [mkResponse (VNum 404) [("statusCode", VNum 404); ("message", VStr "User Not Found")]].
Proof.
  intros Hfind Hfalsy.
  destruct (new_AppError_run "User Not Found" 404 s1) as (s2 & l & Hnew & Hg & _ & Hl).
  destruct (errorMiddleware_on_AppError s2 l "User Not Found" 404 Hl eq_refl)
    as (s' & Hrun & Hsent).
  exists s'. split.
  - unfold Lifecycle.handle_request, Lifecycle.in_try, Lifecycle.route_get_user,
      Lifecycle.catchAsync, Lifecycle.get_user.
    unfold bind at 1 2. simpl. rewrite run_jobs_one.
    apply caught_fulfilled.
    unfold Lifecycle.await, forward_failure, bind.
    now rewrite Hfind, Hfalsy, Hnew, Hrun.
  - rewrite Hsent. destruct Hg as (_ & _ & _ & ->). reflexivity.
Qed.

(** X11: GET /users/:id for a user that is found, on a response whose status
    the transport accepts (it is 200 unless something changed it): the
    handler writes the one response [{status: 'success', data: user}] with
    that status, and nothing else happens: [next] is not called, nothing is
    logged and the heap is as the data-access layer left it. *)
Theorem get_user_found req next s s1 user :
  User_findById (Lifecycle.in_id req) s = (s1, Normal (Async.Fulfilled user)) ->
  truthy user = true ->
  status_verdict (st_status s1) = Accepted ->
  Lifecycle.handle_request (Lifecycle.route_get_user User_findById) req next s =
  (mkState (st_heap s1) (st_console s1) (st_status s1)
     (st_sent s1 ++
        [mkResponse (st_status s1) [("status", VStr "success"); ("data", user)]]),
   Normal []).
Proof.
  intros Hfind Htruthy Hok.
  unfold Lifecycle.handle_request, Lifecycle.in_try, Lifecycle.route_get_user,
    Lifecycle.catchAsync, Lifecycle.get_user.
  unfold bind at 1 2. simpl. rewrite run_jobs_one.
  apply caught_fulfilled.
  unfold Lifecycle.await, res_json, bind. now rewrite Hfind, Htruthy, Hok.
Qed.

(** X12: GET /users/:id when the query rejects with [e] (an id that cannot be
    cast, a lost connection).  Under the wrapper the request is the call
    [next(e)], whatever [next] is: when [next] returns no rejection is left
    unhandled, and when [next] throws, the rejection of the derived promise
    is.  The same handler without the wrapper never calls [next] and leaves
    [e] unhandled. *)
Theorem get_user_rejected req next s s1 e :
  User_findById (Lifecycle.in_id req) s = (s1, Normal (Async.Rejected e)) ->
  Lifecycle.handle_request (Lifecycle.route_get_user User_findById) req next s =
    match next e s1 with
    | (s2, Normal _) => (s2, Normal [])
    | (s2, Throw k) => (s2, Normal [Lifecycle.Thrown k])
    | (s2, Unmodelled) => (s2, Unmodelled)
    end
  /\ Lifecycle.handle_request (Lifecycle.get_user User_findById) req next s =
     (s1, Normal [Lifecycle.Value e]).
Proof.
  intros Hfind.
  split.
  - unfold Lifecycle.handle_request, Lifecycle.in_try, Lifecycle.route_get_user,
      Lifecycle.catchAsync, Lifecycle.get_user.
    unfold bind at 1 2. simpl. rewrite run_jobs_one.
    apply caught_rejected. unfold Lifecycle.await, bind. now rewrite Hfind.
  - unfold Lifecycle.handle_request, Lifecycle.in_try, Lifecycle.get_user.
    unfold bind at 1. simpl. rewrite run_jobs_one.
    apply dropped_rejected. unfold Lifecycle.await, bind. now rewrite Hfind.
Qed.

(** X13: POST /users when the document is created: the handler writes the one
    response 201 [{status: 'success', data: user}]; [next] is not called and
    nothing is logged. *)
Theorem create_user_created req next s s1 user :
  User_create (Lifecycle.in_body req) s = (s1, Normal (Async.Fulfilled user)) ->
  Lifecycle.handle_request (Lifecycle.route_create_user User_create) req next s =
  (mkState (st_heap s1) (st_console s1) (VNum 201)
     (st_sent s1 ++ [mkResponse (VNum 201) [("status", VStr "success"); ("data", user)]]),
   Normal []).
Proof.
  intros Hcreate.
  unfold Lifecycle.handle_request, Lifecycle.in_try, Lifecycle.route_create_user,
    Lifecycle.catchAsync, Lifecycle.create_user.
  unfold bind at 1 2. simpl. rewrite run_jobs_one.
  apply caught_fulfilled.
  unfold Lifecycle.await, res_status, res_json, bind. now rewrite Hcreate.
Qed.

(** X14: POST /users when the data-access layer rejects with [e] (a failed
    validation, a duplicate key).  Under the wrapper the request is the call
    [next(e)], whatever [next] is, and no response of the handler is written:
    when [next] returns no rejection is left unhandled, and when [next]
    throws, the rejection of the derived promise is.  Without the wrapper [e]
    is left unhandled and [next] is never called. *)
Theorem create_user_rejected req next s s1 e :
  User_create (Lifecycle.in_body req) s = (s1, Normal (Async.Rejected e)) ->
  Lifecycle.handle_request (Lifecycle.route_create_user User_create) req next s =
    match next e s1 with
    | (s2, Normal _) => (s2, Normal [])
    | (s2, Throw k) => (s2, Normal [Lifecycle.Thrown k])
    | (s2, Unmodelled) => (s2, Unmodelled)
    end
  /\ Lifecycle.handle_request (Lifecycle.create_user User_create) req next s =
     (s1, Normal [Lifecycle.Value e]).
Proof.
  intros Hcreate.
  split.
  - unfold Lifecycle.handle_request, Lifecycle.in_try, Lifecycle.route_create_user,
      Lifecycle.catchAsync, Lifecycle.create_user.
    unfold bind at 1 2. simpl. rewrite run_jobs_one.
    apply caught_rejected. unfold Lifecycle.await, bind. now rewrite Hcreate.
  - unfold Lifecycle.handle_request, Lifecycle.in_try, Lifecycle.create_user.
    unfold bind at 1. simpl. rewrite run_jobs_one.
    apply dropped_rejected. unfold Lifecycle.await, bind. now rewrite Hcreate.
Qed.

End UserRoutes.

Lemma get_user_not_found_witness :
  exists s',
    Lifecycle.handle_request (Lifecycle.route_get_user (settles (Async.Fulfilled VNull)))
      a_request forward_failure (a_state ∅) = (s', Normal [])
    /\ st_sent s' = st_sent (a_state ∅) ++
         [mkResponse (VNum 404) [("statusCode", VNum 404); ("message", VStr "User Not Found")]].
Proof.
  apply (get_user_not_found (settles (Async.Fulfilled VNull)) a_request (a_state ∅)
           (a_state ∅) VNull); reflexivity.
Defined.

Lemma get_user_found_witness :
  Lifecycle.handle_request (Lifecycle.route_get_user (settles (Async.Fulfilled the_error)))
    a_request forward_failure (a_state heap_user) =
  (mkState heap_user [] (VNum 200)
     [mkResponse (VNum 200) [("status", VStr "success"); ("data", the_error)]],
   Normal []).
Proof.
  apply (get_user_found (settles (Async.Fulfilled the_error)) a_request forward_failure
           (a_state heap_user) (a_state heap_user) the_error); reflexivity.
Defined.

Lemma get_user_rejected_witness :
  Lifecycle.handle_request (Lifecycle.route_get_user (settles (Async.Rejected the_error)))
    a_request forward_failure (a_state heap_CastError) =
    (fst (forward_failure the_error (a_state heap_CastError)), Normal [])
  /\ Lifecycle.handle_request (Lifecycle.get_user (settles (Async.Rejected the_error)))
       a_request forward_failure (a_state heap_CastError) =
     (a_state heap_CastError, Normal [Lifecycle.Value the_error]).
Proof.
  apply (get_user_rejected (settles (Async.Rejected the_error)) a_request forward_failure
           (a_state heap_CastError) (a_state heap_CastError) the_error); reflexivity.
Defined.

Lemma create_user_created_witness :
  Lifecycle.handle_request (Lifecycle.route_create_user (settles (Async.Fulfilled the_error)))
    a_request forward_failure (a_state heap_user) =
  (mkState heap_user [] (VNum 201)
     [mkResponse (VNum 201) [("status", VStr "success"); ("data", the_error)]],
   Normal []).
Proof.
  apply (create_user_created (settles (Async.Fulfilled the_error)) a_request forward_failure
           (a_state heap_user) (a_state heap_user) the_error); reflexivity.
Defined.

Lemma create_user_rejected_witness :
  Lifecycle.handle_request (Lifecycle.route_create_user (settles (Async.Rejected the_error)))
    a_request forward_failure (a_state heap_duplicate) =
    (fst (forward_failure the_error (a_state heap_duplicate)), Normal [])
  /\ Lifecycle.handle_request (Lifecycle.create_user (settles (Async.Rejected the_error)))
       a_request forward_failure (a_state heap_duplicate) =
     (a_state heap_duplicate, Normal [Lifecycle.Value the_error]).
Proof.
  apply (create_user_rejected (settles (Async.Rejected the_error)) a_request forward_failure
           (a_state heap_duplicate) (a_state heap_duplicate) the_error); reflexivity.
Defined.

(** The failures of the data-access layer that the routes of the demo name,
    end to end: a malformed id on GET /users/:id and a duplicate email on
    POST /users. *)
Example user_routes_are_answered :
  st_sent (fst (Lifecycle.handle_request
                  (Lifecycle.route_get_user (settles (Async.Rejected the_error)))
                  a_request forward_failure (a_state heap_CastError))) =
    [mkResponse (VNum 400) [("statusCode", VNum 400); ("message", VStr "Invalid ID format")]]
  /\ st_sent (fst (Lifecycle.handle_request
                     (Lifecycle.route_create_user (settles (Async.Rejected the_error)))
                     a_request forward_failure (a_state heap_duplicate))) =
     [mkResponse (VNum 400)
        [("statusCode", VNum 400); ("message", VStr "Duplicate field value: email")]].
Proof. split; vm_compute; reflexivity. Qed.
